(** * Extraction and normalisation core of [arbitr.py]

    A shallow embedding of the text-classification and date-normalisation
    functions of [GoogleScraper] ([_extract_industries],
    [_extract_countries_with_counts], [_normalize_country_name],
    [_determine_attack_method], [_parse_google_date], [_parse_date] and
    their helpers), followed by the properties proved about them.

    Python [str] values are modelled as [string]: a sequence of characters
    with code points 0..255 (the Latin-1 block of Unicode).  The character
    predicates below follow CPython's Unicode predicates on that block. *)

From Stdlib Require Import ZArith Lia Bool List Ascii String.
From stdpp Require Import base list strings gmap.

Local Open Scope string_scope.

(** ** Characters *)

Module Chr.

Local Open Scope N_scope.

Definition code (c : ascii) : N := N_of_ascii c.

Definition between (lo hi n : N) : bool := (lo <=? n) && (n <=? hi).

(** The predicates on code points. *)

Definition digit_code (n : N) : bool := between 48 57 n.

Definition ascii_upper_code (n : N) : bool := between 65 90 n.
Definition ascii_lower_code (n : N) : bool := between 97 122 n.

(** TAB..CR, FS..US, SPACE, NEL, NBSP. *)
Definition space_code (n : N) : bool :=
  between 9 13 n || between 28 32 n || (n =? 133) || (n =? 160).

(** Letters: the ASCII letters and those of the Latin-1 supplement. *)
Definition alpha_code (n : N) : bool :=
  if n <? 128 then ascii_lower_code n || ascii_upper_code n
  else (n =? 170) || (n =? 181) || (n =? 186)
       || between 192 214 n || between 216 246 n || between 248 255 n.

(** Alphanumeric (alphabetic, decimal, digit or numeric) or underscore. *)
Definition word_code (n : N) : bool :=
  if n <? 128 then ascii_lower_code n || digit_code n || ascii_upper_code n || (n =? 95)
  else alpha_code n || (n =? 178) || (n =? 179) || (n =? 185) || between 188 190 n.

(** Upper-case letters, whose lower-case partner lies 32 code points above. *)
Definition upper_code (n : N) : bool :=
  ascii_upper_code n || (between 192 222 n && negb (n =? 215)).

(** Lower-case letters whose upper-case partner lies 32 code points below
    (the letters of the Latin-1 block whose partner is outside the block
    are left unchanged; the source applies [str.title] to registry tokens,
    which are ASCII). *)
Definition lower_code (n : N) : bool :=
  ascii_lower_code n || (between 224 254 n && negb (n =? 247)).

(** [\d]: decimal digits. *)
Definition is_digit (c : ascii) : bool := digit_code (code c).

(** [str.isspace] and [\s]. *)
Definition is_space (c : ascii) : bool := space_code (code c).

(** [str.isalpha]. *)
Definition is_alpha (c : ascii) : bool := alpha_code (code c).

(** [\w]. *)
Definition is_word (c : ascii) : bool := word_code (code c).

(** Case conversion on code points. *)
Definition lower_n (n : N) : N := if upper_code n then n + 32 else n.
Definition upper_n (n : N) : N := if lower_code n then n - 32 else n.

Definition lower (c : ascii) : ascii :=
  let n := code c in if upper_code n then ascii_of_N (n + 32) else c.

Definition upper (c : ascii) : ascii :=
  let n := code c in if lower_code n then ascii_of_N (n - 32) else c.

Definition is_cased (c : ascii) : bool := is_alpha c.

End Chr.

(** ** Strings *)

Module Str.

Fixpoint map (f : ascii -> ascii) (s : string) : string :=
  match s with
  | EmptyString => EmptyString
  | String c t => String (f c) (map f t)
  end.

(** [s.lower()] *)
Definition lower (s : string) : string := map Chr.lower s.

(** [s.title()]: a cased character is upper-cased when the character before
    it is uncased (or it is first) and lower-cased otherwise. *)
Fixpoint title_from (prev_cased : bool) (s : string) : string :=
  match s with
  | EmptyString => EmptyString
  | String c t =>
      String (if prev_cased then Chr.lower c else Chr.upper c)
             (title_from (Chr.is_cased c) t)
  end.

Definition title (s : string) : string := title_from false s.

(** [s.startswith(p)] *)
Fixpoint startswith (p s : string) : bool :=
  match p, s with
  | EmptyString, _ => true
  | String _ _, EmptyString => false
  | String a p', String b s' => if Ascii.eqb a b then startswith p' s' else false
  end.

(** [needle in hay] on strings. *)
Fixpoint contains (needle hay : string) : bool :=
  if startswith needle hay then true
  else match hay with
       | EmptyString => false
       | String _ t => contains needle t
       end.

Fixpoint lstrip (s : string) : string :=
  match s with
  | String c t => if Chr.is_space c then lstrip t else s
  | EmptyString => EmptyString
  end.

(** Drops trailing white space: a character is kept when something that is
    kept follows it or when it is not white space. *)
Fixpoint rstrip (s : string) : string :=
  match s with
  | EmptyString => EmptyString
  | String c t =>
      match rstrip t with
      | EmptyString => if Chr.is_space c then EmptyString else String c EmptyString
      | r => String c r
      end
  end.

(** [s.strip()] *)
Definition strip (s : string) : string := rstrip (lstrip s).

Fixpoint zeros (n : nat) : string :=
  match n with
  | O => EmptyString
  | S k => String "0" (zeros k)
  end.

(** [s.zfill(width)]: zeros are inserted after a leading sign. *)
Definition zfill (width : nat) (s : string) : string :=
  let pad := zeros (width - String.length s) in
  match s with
  | String c t =>
      if Ascii.eqb c "+" || Ascii.eqb c "-" then String c (pad ++ t) else pad ++ s
  | EmptyString => pad
  end.

Definition digit_val (c : ascii) : Z := Z.of_N (Chr.code c - 48).

Fixpoint int_acc (acc : Z) (s : string) : option Z :=
  match s with
  | EmptyString => Some acc
  | String c t =>
      if Chr.is_digit c then int_acc (10 * acc + digit_val c) t else None
  end.

(** [int(s)] on decimal digits, white space around them being ignored;
    [None] stands for [ValueError].  (Signs and underscores are not
    modelled: the source passes runs of digits captured by [\d].) *)
Definition int (s : string) : option Z :=
  match strip s with
  | EmptyString => None
  | digits => int_acc 0 digits
  end.

Definition digit_chr (n : Z) : ascii := ascii_of_N (48 + Z.to_N (n mod 10)).

(** Two- and four-digit zero-padded decimal fields, as printed by
    [strftime] for [%m], [%d] and [%Y]. *)
Definition dec2 (n : Z) : string :=
  String (digit_chr (n / 10)) (String (digit_chr n) EmptyString).

Definition dec4 (n : Z) : string :=
  String (digit_chr (n / 1000)) (String (digit_chr (n / 100)) (dec2 n)).

(** [s[:n]] *)
Fixpoint take (n : nat) (s : string) : string :=
  match n, s with
  | S k, String c t => String c (take k t)
  | _, _ => EmptyString
  end.

(** [s.split('\n')] *)
Fixpoint split_lines (s : string) : list string :=
  match s with
  | EmptyString => [EmptyString]
  | String c t =>
      if Ascii.eqb c "010" then EmptyString :: split_lines t
      else match split_lines t with
           | l :: ls => String c l :: ls
           | [] => [String c EmptyString]
           end
  end.

End Str.

(** ** Regular expressions

    The fragment of Python's [re] syntax that the source uses: character
    classes, concatenation, ordered alternation, greedy bounded repetition
    of a character class, numbered capture groups and the word boundary
    [\b].  Matching is by backtracking with a success continuation, which
    gives Python's leftmost, greedy, first-alternative-first semantics. *)

Module Re.

#[local] Set Warnings "-register-all".

Inductive cclass : Type :=
| CChar (c : ascii)            (* an escaped or ordinary literal character *)
| CDigit                       (* \d *)
| CWord                        (* \w *)
| CSpace                       (* \s *)
| CRange (lo hi : ascii)       (* a range inside brackets, as in [A-Z] *)
| CAny (ks : list cclass).     (* a bracket expression, as in [-/] or [A-Za-z] *)

Inductive regex : Type :=
| Eps
| Cls (k : cclass)
| Cat (r1 r2 : regex)
| Alt (r1 r2 : regex)
| Rep (k : cclass) (lo : nat) (hi : option nat)   (* greedy k{lo,hi}; hi = None is unbounded *)
| Grp (i : nat) (r : regex)
| Bnd.                                             (* \b *)

(** The literal pattern [re.escape(s)], character by character. *)
Fixpoint Lit (s : string) : regex :=
  match s with
  | EmptyString => Eps
  | String c t => Cat (Cls (CChar c)) (Lit t)
  end.

Definition Plus (k : cclass) : regex := Rep k 1 None.      (* k+ *)
Definition Star (k : cclass) : regex := Rep k 0 None.      (* k* *)
Definition Opt (k : cclass) : regex := Rep k 0 (Some 1).   (* k? *)

(** [ic] is the [re.IGNORECASE] flag: a literal matches when the lower-case
    forms agree, a range when the character or one of its case variants
    lies in it. *)
Fixpoint cmatch (ic : bool) (k : cclass) (c : ascii) : bool :=
  match k with
  | CChar a =>
      if ic then N.eqb (Chr.lower_n (Chr.code c)) (Chr.lower_n (Chr.code a))
      else Ascii.eqb c a
  | CDigit => Chr.is_digit c
  | CWord => Chr.is_word c
  | CSpace => Chr.is_space c
  | CRange lo hi =>
      let n := Chr.code c in
      let l := Chr.code lo in
      let h := Chr.code hi in
      Chr.between l h n
      || (ic && (Chr.between l h (Chr.lower_n n) || Chr.between l h (Chr.upper_n n)))
  | CAny ks => existsb (fun k' => cmatch ic k' c) ks
  end.

(** A position in the subject: the character before it, the text after it,
    its index, and the groups captured so far (most recent first). *)
Record mstate : Type := MState {
  st_prev : option ascii;
  st_rest : string;
  st_pos : nat;
  st_caps : list (nat * string)
}.

Definition is_word_opt (o : option ascii) : bool :=
  match o with
  | Some c => Chr.is_word c
  | None => false
  end.

Definition next_char (s : string) : option ascii :=
  match s with
  | String c _ => Some c
  | EmptyString => None
  end.

(** [\b] holds where exactly one of the two neighbours is a word character. *)
Definition at_boundary (prev : option ascii) (rest : string) : bool :=
  xorb (is_word_opt prev) (is_word_opt (next_char rest)).

Definition below (n : nat) (hi : option nat) : bool :=
  match hi with
  | None => true
  | Some h => Nat.ltb n h
  end.

Section Matcher.
Context {R : Type}.
Variable ic : bool.

(** Greedy repetition: take one more character when allowed, and come
    back to stop here when what follows fails. [n] counts the characters
    taken so far. *)
Fixpoint rep (k : cclass) (lo : nat) (hi : option nat) (n : nat)
         (prev : option ascii) (rest : string) (pos : nat)
         (caps : list (nat * string)) (kont : mstate -> option R)
         {struct rest} : option R :=
  let here := if Nat.leb lo n then kont (MState prev rest pos caps) else None in
  match rest with
  | String c t =>
      if cmatch ic k c && below n hi then
        match rep k lo hi (S n) (Some c) t (S pos) caps kont with
        | Some r => Some r
        | None => here
        end
      else here
  | EmptyString => here
  end.

Fixpoint rx (r : regex) (st : mstate) (kont : mstate -> option R) : option R :=
  match r with
  | Eps => kont st
  | Cls k =>
      match st_rest st with
      | String c t =>
          if cmatch ic k c
          then kont (MState (Some c) t (S (st_pos st)) (st_caps st))
          else None
      | EmptyString => None
      end
  | Cat r1 r2 => rx r1 st (fun st' => rx r2 st' kont)
  | Alt r1 r2 =>
      match rx r1 st kont with
      | Some x => Some x
      | None => rx r2 st kont
      end
  | Rep k lo hi => rep k lo hi 0 (st_prev st) (st_rest st) (st_pos st) (st_caps st) kont
  | Grp i r1 =>
      rx r1 st (fun st' =>
        kont (MState (st_prev st') (st_rest st') (st_pos st')
                     ((i, Str.take (st_pos st' - st_pos st) (st_rest st)) :: st_caps st')))
  | Bnd => if at_boundary (st_prev st) (st_rest st) then kont st else None
  end.
End Matcher.

(** A match object: [start()], [end()], [group(0)] and the numbered groups. *)
Record match_obj : Type := Match {
  m_start : nat;
  m_end : nat;
  m_text : string;
  m_caps : list (nat * string)
}.

Fixpoint lookup_cap (i : nat) (caps : list (nat * string)) : option string :=
  match caps with
  | [] => None
  | (j, s) :: caps' => if Nat.eqb i j then Some s else lookup_cap i caps'
  end.

(** [m.group(i)] for a group that took part in the match. *)
Definition group (i : nat) (m : match_obj) : string :=
  match lookup_cap i (m_caps m) with
  | Some s => s
  | None => EmptyString
  end.

(** One attempt at a fixed position. *)
Definition match_here (ic : bool) (r : regex) (prev : option ascii) (rest : string)
           (pos : nat) : option match_obj :=
  match rx ic r (MState prev rest pos []) Some with
  | Some st => Some (Match pos (st_pos st) (Str.take (st_pos st - pos) rest) (st_caps st))
  | None => None
  end.

(** [re.match(r, s)]: anchored at the start of the subject. *)
Definition match_ (ic : bool) (r : regex) (s : string) : option match_obj :=
  match_here ic r None s 0.

Fixpoint search_from (ic : bool) (r : regex) (prev : option ascii) (rest : string)
         (pos : nat) : option match_obj :=
  match match_here ic r prev rest pos with
  | Some m => Some m
  | None =>
      match rest with
      | String c t => search_from ic r (Some c) t (S pos)
      | EmptyString => None
      end
  end.

(** [re.search(r, s)]: the leftmost match. *)
Definition search (ic : bool) (r : regex) (s : string) : option match_obj :=
  search_from ic r None s 0.

(** Scan for successive non-overlapping matches. [skip] counts the
    characters still covered by the previous match.  The patterns of the
    source never match the empty string, so the scan resumes right after
    each match. *)
Fixpoint scan (ic : bool) (r : regex) (prev : option ascii) (rest : string)
         (pos skip : nat) : list match_obj :=
  match skip with
  | S k =>
      match rest with
      | String c t => scan ic r (Some c) t (S pos) k
      | EmptyString => []
      end
  | O =>
      match match_here ic r prev rest pos with
      | Some m =>
          m :: match rest with
               | String c t => scan ic r (Some c) t (S pos) (m_end m - pos - 1)
               | EmptyString => []
               end
      | None =>
          match rest with
          | String c t => scan ic r (Some c) t (S pos) 0
          | EmptyString => []
          end
      end
  end.

(** The matches behind [re.findall(r, s)] and [re.finditer(r, s)]. *)
Definition finditer (ic : bool) (r : regex) (s : string) : list match_obj :=
  scan ic r None s 0 0.

End Re.

Import Re.

(** ** Calendar dates

    The proleptic Gregorian ordinal arithmetic of Python's [datetime]
    ([_ymd2ord], [_ord2ymd]), and the two conversions the source uses:
    [strftime('%Y-%m-%d')] and [strptime(s, '%Y-%m-%d')]. *)

Module Date.

Local Open Scope Z_scope.

Record date : Type := Date { year : Z; month : Z; day : Z }.

Definition is_leap (y : Z) : bool :=
  (y mod 4 =? 0) && (negb (y mod 100 =? 0) || (y mod 400 =? 0)).

Definition _DAYS_IN_MONTH : list Z := [31; 28; 31; 30; 31; 30; 31; 31; 30; 31; 30; 31].

Definition _DAYS_BEFORE_MONTH : list Z :=
  [0; 31; 59; 90; 120; 151; 181; 212; 243; 273; 304; 334].

Definition table (l : list Z) (m : Z) : Z := nth (Z.to_nat (m - 1)) l 0.

Definition _days_in_month (y m : Z) : Z :=
  if (m =? 2) && is_leap y then 29 else table _DAYS_IN_MONTH m.

Definition _days_before_year (y : Z) : Z :=
  let y' := y - 1 in y' * 365 + y' / 4 - y' / 100 + y' / 400.

Definition _days_before_month (y m : Z) : Z :=
  table _DAYS_BEFORE_MONTH m + (if (2 <? m) && is_leap y then 1 else 0).

Definition _ymd2ord (d : date) : Z :=
  _days_before_year (year d) + _days_before_month (year d) (month d) + day d.

Definition _DI400Y : Z := 146097.
Definition _DI100Y : Z := 36524.
Definition _DI4Y : Z := 1461.

Definition _ord2ymd (ord : Z) : date :=
  let n := ord - 1 in
  let n400 := n / _DI400Y in
  let n := n mod _DI400Y in
  let y := n400 * 400 + 1 in
  let n100 := n / _DI100Y in
  let n := n mod _DI100Y in
  let n4 := n / _DI4Y in
  let n := n mod _DI4Y in
  let n1 := n / 365 in
  let n := n mod 365 in
  let y := y + n100 * 100 + n4 * 4 + n1 in
  if (n1 =? 4) || (n100 =? 4) then Date (y - 1) 12 31
  else
    let leapyear := (n1 =? 3) && (negb (n4 =? 24) || (n100 =? 3)) in
    let m := Z.shiftr (n + 50) 5 in
    let preceding := table _DAYS_BEFORE_MONTH m + (if (2 <? m) && leapyear then 1 else 0) in
    if n <? preceding then
      let m' := m - 1 in
      let preceding' :=
        preceding - (table _DAYS_IN_MONTH m' + (if (m' =? 2) && leapyear then 1 else 0)) in
      Date y m' (n - preceding' + 1)
    else Date y m (n - preceding + 1).

Definition _MAXORDINAL : Z := 3652059.

(** The constructor check of [datetime.date]. *)
Definition valid (d : date) : bool :=
  (1 <=? year d) && (year d <=? 9999) && (1 <=? month d) && (month d <=? 12)
  && (1 <=? day d) && (day d <=? _days_in_month (year d) (month d)).

(** [now - timedelta(days=n)] on the date part; [None] stands for the
    [OverflowError] raised when [n] exceeds the range of [timedelta] or the
    result leaves years 1..9999. *)
Definition sub_days (now : date) (n : Z) : option date :=
  if (Z.abs n <=? 999999999) then
    let o := _ymd2ord now - n in
    if (1 <=? o) && (o <=? _MAXORDINAL) then Some (_ord2ymd o) else None
  else None.

(** [d.strftime('%Y-%m-%d')]; the year is printed on four digits (for years
    below 1000 the padding is the C library's choice). *)
Definition strftime (d : date) : string :=
  (Str.dec4 (year d) ++ "-" ++ Str.dec2 (month d) ++ "-" ++ Str.dec2 (day d))%string.

Definition rng (lo hi : ascii) : regex := Cls (CRange lo hi).

(** The regular expression that [_strptime] compiles for ['%Y-%m-%d']:
    [(\d\d\d\d)-(1[0-2]|0[1-9]|[1-9])-(3[0-1]|[1-2]\d|0[1-9]|[1-9]| [1-9])]. *)
Definition format_regex : regex :=
  Cat (Grp 1 (Cat (Cls CDigit) (Cat (Cls CDigit) (Cat (Cls CDigit) (Cls CDigit)))))
 (Cat (Cls (CChar "-"))
 (Cat (Grp 2 (Alt (Cat (Cls (CChar "1")) (rng "0" "2"))
             (Alt (Cat (Cls (CChar "0")) (rng "1" "9"))
                  (rng "1" "9"))))
 (Cat (Cls (CChar "-"))
      (Grp 3 (Alt (Cat (Cls (CChar "3")) (rng "0" "1"))
             (Alt (Cat (rng "1" "2") (Cls CDigit))
             (Alt (Cat (Cls (CChar "0")) (rng "1" "9"))
             (Alt (rng "1" "9")
                  (Cat (Cls (CChar " ")) (rng "1" "9")))))))))).

(** [datetime.strptime(s, '%Y-%m-%d')]; [None] stands for [ValueError]
    (no match, unconverted data, or not a calendar date). *)
Definition strptime (s : string) : option date :=
  match match_ true format_regex s with
  | None => None
  | Some m =>
      if negb (Nat.eqb (m_end m) (String.length s)) then None
      else
        match Str.int (group 1 m), Str.int (group 2 m), Str.int (group 3 m) with
        | Some y, Some mo, Some d =>
            let dt := Date y mo d in if valid dt then Some dt else None
        | _, _, _ => None
        end
  end.

End Date.

(** ** Python values and exceptions

    The classification functions are annotated [text: str] but Python does
    not enforce it; [pyval] lets a caller pass [None], and [pyres] records
    the exception an operation raises on it. *)

Inductive pyexn : Type := TypeError | AttributeError.

Inductive pyres (A : Type) : Type :=
| Ok (a : A)
| Raise (e : pyexn).

Arguments Ok {A} a.
Arguments Raise {A} e.

Inductive pyval : Type :=
| PyNone
| PyStr (s : string).

Definition bind {A B : Type} (m : pyres A) (f : A -> pyres B) : pyres B :=
  match m with
  | Ok a => f a
  | Raise e => Raise e
  end.

Notation "x <~ m ;; k" := (bind m (fun x => k))
  (at level 100, m at next level, right associativity).

(** [v.lower()]: [None] has no attribute [lower]. *)
Definition py_lower (v : pyval) : pyres string :=
  match v with
  | PyStr s => Ok (Str.lower s)
  | PyNone => Raise AttributeError
  end.

(** [needle in v]: [None] is not iterable. *)
Definition py_in (needle : string) (v : pyval) : pyres bool :=
  match v with
  | PyStr s => Ok (Str.contains needle s)
  | PyNone => Raise TypeError
  end.

(** ** Ordered dictionaries

    A [dict] whose iteration order matters: keys in order of first
    insertion, a repeated key keeping its place and taking the new value. *)

Module OD.

Fixpoint set {V : Type} (k : string) (v : V) (d : list (string * V)) : list (string * V) :=
  match d with
  | [] => [(k, v)]
  | (k', v') :: d' =>
      if String.eqb k k' then (k, v) :: d' else (k', v') :: set k v d'
  end.

(** The dictionary denoted by a literal [{k1: v1, k2: v2, ...}]. *)
Definition literal {V : Type} (kvs : list (string * V)) : list (string * V) :=
  fold_left (fun d kv => set (fst kv) (snd kv) d) kvs [].

Fixpoint get {V : Type} (k : string) (d : list (string * V)) : option V :=
  match d with
  | [] => None
  | (k', v) :: d' => if String.eqb k k' then Some v else get k d'
  end.

End OD.

(** ** The static tables of [GoogleScraper] *)

(** [INDUSTRY_KEYWORDS], in the order of the dictionary literal. *)
Definition INDUSTRY_KEYWORDS : list (string * list string) :=
  [ ("energy",
     [ "power grid"; "electricity transmission"; "high voltage substation"; "transformer";
       "switchgear"; "grid operator"; "power plant"; "gas-fired plant"; "substation";
       "nuclear plant"; "hydropower dam"; "wind farm"; "solar farm"; "transformer";
       "gas pipeline"; "compressor station"; "LNG terminal"; "oil refinery";
       "fuel depot"; "storage tank"; "pumping station"; "heating";
       "blackout"; "grid failure"; "SCADA"; "ICS"; "power outage" ]);
    ("transportation",
     [ "railway"; "rail line"; "freight train";
       "rail yard"; "marshalling yard";
       "rail signalling"; "signal box";
       "switch points"; "interlocking";
       "derailment"; "derailed"; "track";
       "bridge"; "tunnel"; "pier"; "terminal";
       "port"; "container terminal";
       "logistics hub"; "distribution hub";
       "fuel pipeline"; "airport";
       "runway"; "air traffic control";
       "depot"; "track section" ]);
    ("telecommunications",
     [ "telecom exchange"; "telephone exchange";
       "mobile network"; "cell tower";
       "base station"; "core network";
       "network operations centre"; "data centre";
       "fiber-optic cable"; "fibre-optic cable";
       "undersea cable"; "subsea cable"; "submarine cable";
       "cable landing station"; "backbone network";
       "microwave link"; "satellite link";
       "routing outage"; "BGP hijack";
       "cable cut"; "network disruption"; "anchor" ]);
    ("finance",
     [ "bank"; "central bank"; "payment system";
       "SWIFT"; "SEPA"; "clearing house";
       "ATM network"; "cash-in-transit";
       "bank branch"; "vault";
       "financial regulator"; "sanctions enforcement";
       "sanctions evasion"; "money laundering";
       "financial cyberattack"; "extortion"; "ransomware";
       "ransom payment"; "crypto exchange"; "illicit finance" ]);
    ("healthcare",
     [ "hospital"; "medical centre"; "emergency department";
       "ambulance service"; "medical supply depot";
       "pharmaceutical plant"; "vaccine facility";
       "laboratory"; "pathology lab"; "biomedical facility";
       "oxygen supply"; "medical gas"; "power outage hospital";
       "backup generator failure"; "hospital ransomware";
       "health data breach"; "medical logistics";
       "cold chain disruption"; "water contamination";
       "fire evacuation"; "security incident" ]);
    ("defense",
     [ "military base"; "airbase"; "naval base"; "barracks";
       "munitions depot"; "ammo depot"; "weapons storage";
       "fuel depot"; "jet fuel"; "military logistics";
       "weapons shipment"; "military convoy"; "rail transport military";
       "radar site"; "air defence"; "missile system";
       "drone"; "UAV"; "military aircraft"; "arms factory";
       "restricted area"; "secure facility"; "perimeter breach";
       "explosive device"; "military attack" ]);
    ("cybersecurity",
     [ "cyber sabotage"; "malware"; "ransomware"; "DDoS";
       "network intrusion"; "unauthorized access";
       "OT compromise"; "ICS compromise"; "SCADA breach"; "industrial control system";
       "PLC manipulation"; "remote access trojan"; "command and control";
       "APT"; "state-sponsored"; "cyber espionage"; "cyber disruption";
       "satellite communications attack"; "router compromise";
       "telecom network intrusion"; "cyberattack"; "cyber attack";
       "system outage" ]);
    ("manufacturing",
     [ "factory"; "production facility"; "industrial site";
       "petrochemical"; "plant"; "production halt" ]);
    ("government",
     [ "government building"; "ministry"; "office"; "recruitment office"; "recruitment centre";
       "state agency"; "regulatory authority"; "municipal building";
       "city hall"; "prefecture"; "embassy"; "consulate";
       "border police"; "border guard"; "customs service";
       "civil protection"; "emergency management"; "critical infrastructure authority";
       "classified facility"; "secure compound" ]) ].

(** The elements of the set literal [COUNTRY_KEYWORDS], as written.  The
    order in which Python iterates over a set of strings is not fixed; the
    functions below take it as an argument. *)
Definition COUNTRY_KEYWORDS : list string :=
  [ "ukraine"; "poland"; "germany"; "france"; "uk"; "united kingdom"; "great britain";
    "england"; "britain";
    "estonia"; "latvia"; "lithuania"; "czech"; "czechia"; "czech republic"; "slovakia";
    "romania"; "bulgaria";
    "finland"; "sweden"; "norway"; "denmark"; "netherlands"; "belgium"; "spain";
    "luxembourg"; "hungary";
    "italy"; "greece"; "portugal"; "moldova"; "austria"; "switzerland" ].

(** [SECURITY_SERVICES['direct']] and [SECURITY_SERVICES['proxy']]. *)
Definition SECURITY_SERVICES_direct : list string :=
  [ "gru"; "svr"; "fsb"; "russian intelligence" ].

Definition SECURITY_SERVICES_proxy : list string :=
  [ "hacker group"; "cybercriminal"; "activist"; "drug"; "criminal group"; "criminals";
    "separatist"; "militia"; "drug dealer"; "drug lord"; "gang"; "gangs"; "recruit"; "traitor";
    "criminal"; "felon"; "extremist"; "extremists"; "extremist group"; "extremist groups";
    "ultranationalist"; "ultranationalists"; "ultranationalist group";
    "ultranationalist groups" ].

(** The local dictionary [mapping] of [_normalize_country_name]; the literal
    repeats the key ['britain']. *)
Definition mapping_literal : list (string * string) :=
  [ ("uk", "United Kingdom");
    ("britain", "United Kingdom");
    ("gb", "United Kingdom");
    ("great britain", "United Kingdom");
    ("england", "United Kingdom");
    ("britain", "United Kingdom");
    ("ukraine", "Ukraine");
    ("poland", "Poland");
    ("germany", "Germany");
    ("france", "France");
    ("estonia", "Estonia");
    ("latvia", "Latvia");
    ("lithuania", "Lithuania");
    ("czech", "Czech Republic");
    ("czechia", "Czech Republic");
    ("czech republic", "Czech Republic");
    ("slovakia", "Slovakia");
    ("romania", "Romania");
    ("bulgaria", "Bulgaria");
    ("finland", "Finland");
    ("sweden", "Sweden");
    ("norway", "Norway");
    ("denmark", "Denmark");
    ("netherlands", "Netherlands");
    ("belgium", "Belgium");
    ("spain", "Spain");
    ("italy", "Italy");
    ("greece", "Greece");
    ("portugal", "Portugal");
    ("moldova", "Moldova");
    ("luxembourg", "Luxembourg");
    ("hungary", "Hungary") ].

Definition mapping : list (string * string) := OD.literal mapping_literal.

(** The local dictionary [months] of [_parse_date]. *)
Definition months : list (string * string) :=
  OD.literal
  [ ("jan", "01"); ("january", "01"); ("feb", "02"); ("february", "02");
    ("mar", "03"); ("march", "03"); ("apr", "04"); ("april", "04");
    ("may", "05"); ("jun", "06"); ("june", "06"); ("jul", "07"); ("july", "07");
    ("aug", "08"); ("august", "08"); ("sep", "09"); ("sept", "09"); ("september", "09");
    ("oct", "10"); ("october", "10"); ("nov", "11"); ("november", "11");
    ("dec", "12"); ("december", "12") ].

(** ** TaxonomyMatcher: [_extract_industries] *)

(** The inner loop [for keyword in keywords: if keyword.lower() in text: ... break];
    the result tells whether the industry was appended. *)
Fixpoint any_keyword (keywords : list string) (text : pyval) : pyres bool :=
  match keywords with
  | [] => Ok false
  | keyword :: rest =>
      hit <~ py_in (Str.lower keyword) text ;;
      if hit then Ok true else any_keyword rest text
  end.

Fixpoint industries_loop (items : list (string * list string)) (text : pyval)
         (found_industries : list string) : pyres (list string) :=
  match items with
  | [] => Ok found_industries
  | (industry, keywords) :: rest =>
      hit <~ any_keyword keywords text ;;
      industries_loop rest text
        (if hit then (found_industries ++ [industry])%list else found_industries)
  end.

Definition _extract_industries (text : pyval) : pyres (list string) :=
  industries_loop INDUSTRY_KEYWORDS text [].

(** ** EntityExtractor: [_normalize_country_name] and
       [_extract_countries_with_counts] *)

(** The loop [for key, value in mapping.items(): if key == country_lower or
    key in country_lower: return value]; [None] when it runs to its end. *)
Fixpoint mapping_loop (items : list (string * string)) (country_lower : string)
  : option string :=
  match items with
  | [] => None
  | (key, value) :: rest =>
      if String.eqb key country_lower || Str.contains key country_lower
      then Some value
      else mapping_loop rest country_lower
  end.

Definition _normalize_country_name (country : string) : string :=
  let country_lower := Str.lower country in
  match mapping_loop mapping country_lower with
  | Some value => value
  | None => Str.title country
  end.

(** [sorted(xs, key=len, reverse=True)]: a stable sort, longest first;
    elements of equal length keep their order in [xs]. *)
Fixpoint insert_by_len (x : string) (sorted : list string) : list string :=
  match sorted with
  | [] => [x]
  | y :: rest =>
      if Nat.ltb (String.length x) (String.length y)
      then y :: insert_by_len x rest
      else x :: sorted
  end.

Definition sorted_by_len_desc (xs : list string) : list string :=
  fold_right insert_by_len [] xs.

(** [r'\b' + re.escape(country_lower) + r'\b'] *)
Definition country_pattern (country_lower : string) : regex :=
  Cat Bnd (Cat (Lit country_lower) Bnd).

(** One iteration of the loop over [sorted_countries]. *)
Definition country_step (text_lower : string)
           (acc : list string * gmap string nat) (country : string)
  : list string * gmap string nat :=
  let '(found_countries, country_mentions) := acc in
  let country_lower := Str.lower country in
  let matches := finditer false (country_pattern country_lower) text_lower in
  match matches with
  | [] => acc
  | _ :: _ =>
      let normalized := _normalize_country_name country in
      let count := length matches in
      let country_mentions' :=
        <[normalized := (default 0 (country_mentions !! normalized) + count)%nat]>
          country_mentions in
      if bool_decide (normalized ∈ found_countries)
      then (found_countries, country_mentions')
      else ((found_countries ++ [normalized])%list, country_mentions')
  end.

(** [set_order] is the order in which the interpreter iterates over
    [COUNTRY_KEYWORDS]. *)
Definition _extract_countries_with_counts (set_order : list string) (text : pyval)
  : pyres (list string * gmap string nat) :=
  text_lower <~ py_lower text ;;
  let sorted_countries := sorted_by_len_desc set_order in
  Ok (fold_left (country_step text_lower) sorted_countries ([], ∅)).

(** ** AttributionClassifier: [_determine_attack_method] *)

(** [sum(1 for keyword in keywords if keyword in text_lower)] *)
Definition score (keywords : list string) (text_lower : string) : nat :=
  length (List.filter (fun keyword => Str.contains keyword text_lower) keywords).

Definition direct_score (text_lower : string) : nat :=
  score SECURITY_SERVICES_direct text_lower.

Definition proxy_score (text_lower : string) : nat :=
  score SECURITY_SERVICES_proxy text_lower.

Definition _determine_attack_method (text : pyval) : pyres string :=
  text_lower <~ py_lower text ;;
  if Nat.ltb (proxy_score text_lower) (direct_score text_lower) then Ok "direct"
  else if Nat.ltb (direct_score text_lower) (proxy_score text_lower) then Ok "proxy"
  else Ok "unknown".

(** ** DateNormalizer *)

(** [dateutil.parser.parse(s, fuzzy=True, default=datetime(2020, 1, 1))] is
    not part of the repository.  It is taken as an argument: [None] when the
    import fails, otherwise a function giving the date it parses, or [None]
    where it raises [ValueError] or [TypeError]. *)
Definition fuzzy_parser : Type := string -> option Date.date.

(** Truth value of a string: [''] is false. *)
Definition truthy (s : string) : bool := negb (String.eqb s "").

Definition _validate_date (date_str : string) : bool :=
  match Date.strptime date_str with
  | Some parsed =>
      if (Date.year parsed <? 2000)%Z || (2030 <? Date.year parsed)%Z then false else true
  | None => false
  end.

(** The check [len(groups) < 3] of the source cannot succeed, since both
    patterns that use this formatter have three groups. *)
Definition _format_date_from_match (m : match_obj) (months : list (string * string))
           (format_type : string) : option string :=
  let fields :=
    if String.eqb format_type "month_day_year"
    then Some (Str.lower (group 1 m), group 2 m, group 3 m)
    else if String.eqb format_type "day_month_year"
    then Some (Str.lower (group 2 m), group 1 m, group 3 m)
    else None in
  match fields with
  | Some (month_str, day, year) =>
      match OD.get month_str months with
      | Some month =>
          if truthy month then Some (year ++ "-" ++ month ++ "-" ++ Str.zfill 2 day)
          else None
      | None => None
      end
  | None => None
  end.

(** [None] stands for the [ValueError] of [int], which the caller catches. *)
Definition _try_eu_or_us_format (m : match_obj) : option string :=
  let day := group 1 m in
  let month := group 2 m in
  let year := group 3 m in
  match Str.int day with
  | None => None
  | Some d =>
      if (12 <? d)%Z then Some (year ++ "-" ++ Str.zfill 2 month ++ "-" ++ Str.zfill 2 day)
      else
        match Str.int month with
        | None => None
        | Some mo =>
            if (12 <? mo)%Z
            then Some (year ++ "-" ++ Str.zfill 2 day ++ "-" ++ Str.zfill 2 month)
            else Some (year ++ "-" ++ Str.zfill 2 day ++ "-" ++ Str.zfill 2 month)
        end
  end.

Definition _format_month_year (m : match_obj) (months : list (string * string))
  : option string :=
  let month_str := Str.lower (group 1 m) in
  let year := group 2 m in
  match OD.get month_str months with
  | Some month => if truthy month then Some (year ++ "-" ++ month ++ "-01") else None
  | None => None
  end.

Definition d12 : regex := Rep CDigit 1 (Some 2).    (* \d{1,2} *)
Definition d4 : regex := Rep CDigit 4 (Some 4).     (* \d{4} *)
Definition dash_or_slash : regex := Cls (CAny [CChar "-"; CChar "/"]).   (* [-/] *)

Definition ymd_formatter (m : match_obj) : option string :=
  Some (group 1 m ++ "-" ++ Str.zfill 2 (group 2 m) ++ "-" ++ Str.zfill 2 (group 3 m)).

(** The list [patterns] of [_parse_date]. *)
Definition patterns : list (regex * (match_obj -> option string)) :=
  [ (* (\w+)\s+(\d{1,2}),?\s+(\d{4}) *)
    (Cat (Grp 1 (Plus CWord)) (Cat (Plus CSpace) (Cat (Grp 2 d12)
       (Cat (Opt (CChar ",")) (Cat (Plus CSpace) (Grp 3 d4))))),
     fun m => _format_date_from_match m months "month_day_year");
    (* (\d{1,2})\s+(\w+)\s+(\d{4}) *)
    (Cat (Grp 1 d12) (Cat (Plus CSpace) (Cat (Grp 2 (Plus CWord))
       (Cat (Plus CSpace) (Grp 3 d4)))),
     fun m => _format_date_from_match m months "day_month_year");
    (* (\d{4})[-/](\d{1,2})[-/](\d{1,2}) *)
    (Cat (Grp 1 d4) (Cat dash_or_slash (Cat (Grp 2 d12) (Cat dash_or_slash (Grp 3 d12)))),
     ymd_formatter);
    (* (\d{1,2})/(\d{1,2})/(\d{4}) *)
    (Cat (Grp 1 d12) (Cat (Cls (CChar "/")) (Cat (Grp 2 d12)
       (Cat (Cls (CChar "/")) (Grp 3 d4)))),
     _try_eu_or_us_format);
    (* (\d{4})\.(\d{1,2})\.(\d{1,2}) *)
    (Cat (Grp 1 d4) (Cat (Cls (CChar ".")) (Cat (Grp 2 d12)
       (Cat (Cls (CChar ".")) (Grp 3 d12)))),
     ymd_formatter);
    (* (\w+)\s+(\d{4}) *)
    (Cat (Grp 1 (Plus CWord)) (Cat (Plus CSpace) (Grp 2 d4)),
     fun m => _format_month_year m months) ].

(** The loop over [patterns]: the first pattern that matches, formats and
    validates gives the result; a formatter that returns [None] or raises
    one of the caught exceptions moves on to the next pattern. *)
Fixpoint patterns_loop (ps : list (regex * (match_obj -> option string)))
         (date_text : string) : option string :=
  match ps with
  | [] => None
  | (pattern, formatter) :: rest =>
      match search true pattern date_text with
      | Some m =>
          match formatter m with
          | Some result =>
              if truthy result && _validate_date result then Some result
              else patterns_loop rest date_text
          | None => patterns_loop rest date_text
          end
      | None => patterns_loop rest date_text
      end
  end.

Definition _parse_date (dateutil : option fuzzy_parser) (date_text : string)
  : option string :=
  if negb (truthy date_text) then None
  else
    let date_text := Str.strip date_text in
    let shortcut :=
      match dateutil with
      | Some parse => parse date_text
      | None => None
      end in
    match shortcut with
    | Some parsed_date => Some (Date.strftime parsed_date)
    | None => patterns_loop patterns date_text
    end.

(** [(\d+)\s+<unit>[s]?\s+ago] *)
Definition ago_pattern (unit : string) : regex :=
  Cat (Grp 1 (Plus CDigit)) (Cat (Plus CSpace) (Cat (Lit unit)
    (Cat (Opt (CAny [CChar "s"])) (Cat (Plus CSpace) (Lit "ago"))))).

(** [(datetime.now() - timedelta(days=n * per_unit)).strftime('%Y-%m-%d')];
    [None] when [int] or the date arithmetic raises, which the source
    catches and passes over. *)
Definition ago (now : Date.date) (per_unit : Z) (m : match_obj) : option string :=
  match Str.int (group 1 m) with
  | Some n => option_map Date.strftime (Date.sub_days now (n * per_unit))
  | None => None
  end.

Definition or_else {A : Type} (o : option A) (next : option A) : option A :=
  match o with
  | Some a => Some a
  | None => next
  end.

Definition relative (now : Date.date) (unit : string) (per_unit : Z) (date_text : string)
  : option string :=
  match search false (ago_pattern unit) date_text with
  | Some m => ago now per_unit m
  | None => None
  end.

(** [now] is the date of [datetime.now()]. *)
Definition _parse_google_date (dateutil : option fuzzy_parser) (now : Date.date)
           (date_text : string) : option string :=
  if negb (truthy date_text) then None
  else
    let date_text := Str.lower (Str.strip date_text) in
    or_else (relative now "day" 1 date_text)
   (or_else (relative now "week" 7 date_text)
   (or_else (relative now "month" 30 date_text)
   (or_else (relative now "year" 365 date_text)
   (or_else (if Str.contains "yesterday" date_text
             then option_map Date.strftime (Date.sub_days now 1) else None)
   (or_else (if Str.contains "today" date_text
             then Some (Date.strftime now) else None)
            (_parse_date dateutil date_text)))))).

(** *** Text-scan fallback: [_extract_date_from_text] *)

Definition alpha : cclass := CAny [CRange "A" "Z"; CRange "a" "z"].   (* [A-Za-z] *)

(** [[A-Za-z]+\s+\d{1,2},?\s+\d{4}] *)
Definition re_month_day_year : regex :=
  Cat (Plus alpha) (Cat (Plus CSpace) (Cat d12 (Cat (Opt (CChar ","))
    (Cat (Plus CSpace) d4)))).

(** [\d{1,2}\s+[A-Za-z]+\s+\d{4}] *)
Definition re_day_month_year : regex :=
  Cat d12 (Cat (Plus CSpace) (Cat (Plus alpha) (Cat (Plus CSpace) d4))).

(** [\d{4}[-/]\d{1,2}[-/]\d{1,2}] *)
Definition re_year_first : regex :=
  Cat d4 (Cat dash_or_slash (Cat d12 (Cat dash_or_slash d12))).

(** [\d{1,2}[-/]\d{1,2}[-/]\d{4}] *)
Definition re_year_last : regex :=
  Cat d12 (Cat dash_or_slash (Cat d12 (Cat dash_or_slash d4))).

(** [(?:published|posted|updated|date|on|by)\s*:?\s*(<r>)] *)
Definition labelled (r : regex) : regex :=
  Cat (Alt (Lit "published") (Alt (Lit "posted") (Alt (Lit "updated")
         (Alt (Lit "date") (Alt (Lit "on") (Lit "by"))))))
 (Cat (Star CSpace) (Cat (Opt (CChar ":")) (Cat (Star CSpace) (Grp 1 r)))).

Definition date_patterns : list regex :=
  [ labelled re_month_day_year;
    labelled re_day_month_year;
    labelled re_year_first;
    labelled re_year_last;
    Cat Bnd (Cat (Grp 1 re_month_day_year) Bnd);
    Cat Bnd (Cat (Grp 1 re_day_month_year) Bnd) ].

(** The pattern of the unlabelled candidates:
    [\b(<month day year>|<day month year>|<year first>)\b]. *)
Definition candidate_pattern : regex :=
  Cat Bnd (Cat (Grp 1 (Alt re_month_day_year (Alt re_day_month_year re_year_first))) Bnd).

Fixpoint first_some {A B : Type} (f : A -> option B) (l : list A) : option B :=
  match l with
  | [] => None
  | a :: l' =>
      match f a with
      | Some b => Some b
      | None => first_some f l'
      end
  end.

(** [if parsed: return parsed] *)
Definition if_truthy (parsed : option string) : option string :=
  match parsed with
  | Some s => if truthy s then Some s else None
  | None => None
  end.

Definition try_line (dateutil : option fuzzy_parser) (line : string) : option string :=
  first_some
    (fun pattern =>
       match search true pattern line with
       | Some m => if_truthy (_parse_date dateutil (group 1 m))
       | None => None
       end)
    date_patterns.

Definition try_candidate (dateutil : option fuzzy_parser) (candidate : string)
  : option string :=
  match if_truthy (_parse_date dateutil candidate) with
  | Some parsed =>
      match Date.strptime parsed with
      | Some date_obj =>
          if (2020 <=? Date.year date_obj)%Z && (Date.year date_obj <=? 2026)%Z
          then Some parsed else None
      | None => None
      end
  | None => None
  end.

Definition _extract_date_from_text (dateutil : option fuzzy_parser) (text : string)
  : option string :=
  let lines := take 30 (Str.split_lines text) in
  match first_some (try_line dateutil) lines with
  | Some parsed => Some parsed
  | None =>
      let first_part := Str.take 1000 text in
      let date_candidates :=
        List.map (group 1) (finditer true candidate_pattern first_part) in
      first_some (try_candidate dateutil) (take 5 date_candidates)
  end.

(** ** Notions used in the statements below *)

(** Whether the loop of [_normalize_country_name] over [mapping] returns,
    that is, whether some key equals the token or occurs in it. *)
Definition resolves_through_table (token : string) : bool :=
  match mapping_loop mapping (Str.lower token) with
  | Some _ => true
  | None => false
  end.

(** The three registry tokens that no key of [mapping] equals or occurs in. *)
Definition unmapped_tokens : list string := ["united kingdom"; "austria"; "switzerland"].

(** A number between 0 and 99 written on two digits, or without a leading
    zero when [padded] is off. *)
Definition numeral (padded : bool) (n : Z) : string :=
  if padded || (9 <? n)%Z then Str.dec2 n else String (Str.digit_chr n) EmptyString.

Fixpoint zrange (lo : Z) (n : nat) : list Z :=
  match n with
  | O => []
  | S k => lo :: zrange (lo + 1) k
  end.

(** The numbers 1..12 with the ways of writing them: padded, and unpadded
    where that differs. *)
Definition numeral_forms : list (Z * bool) :=
  flat_map (fun n => if (9 <? n)%Z then [(n, true)] else [(n, true); (n, false)])
           (zrange 1 12).

(** The check behind the month-first reading of ambiguous numeric dates. *)
Definition month_first_check (a b : Z * bool) (y : Z) : bool :=
  match _parse_date None (numeral (snd a) (fst a) ++ "/" ++ numeral (snd b) (fst b)
                          ++ "/" ++ Str.dec4 y) with
  | Some r => String.eqb r (Str.dec4 y ++ "-" ++ Str.dec2 (fst a) ++ "-" ++ Str.dec2 (fst b))
  | None => false
  end.

(** The number of matches that [re.findall] returns for a registry token
    in the lower-cased text: its non-overlapping occurrences between word
    boundaries. *)
Definition occurrences (token text_lower : string) : nat :=
  length (finditer false (country_pattern (Str.lower token)) text_lower).

(** The occurrences of all the tokens of [tokens] that normalise to
    [canonical], added up. *)
Definition mention_sum (tokens : list string) (canonical text_lower : string) : nat :=
  sum_list_with (fun token => occurrences token text_lower)
                (filter (fun token => _normalize_country_name token = canonical) tokens).

(** The canonical names of the registry, each once. *)
Definition canonical_names : list string :=
  remove_dups (_normalize_country_name <$> COUNTRY_KEYWORDS).

(** What the loop iteration for [token] adds to the count of [canonical]. *)
Definition added (text_lower token canonical : string) : nat :=
  if decide (_normalize_country_name token = canonical)
  then occurrences token text_lower else 0.

(** *** Whole-word occurrences, stated without the matcher *)

(** The last character of [s], or [prev] when [s] is empty. *)
Fixpoint last_char_from (prev : option ascii) (s : string) : option ascii :=
  match s with
  | EmptyString => prev
  | String c t => last_char_from (Some c) t
  end.

(** [s[n:]] *)
Fixpoint drop_chars (n : nat) (s : string) : string :=
  match n, s with
  | S k, String _ t => drop_chars k t
  | _, _ => s
  end.

(** The token stands at the head of [rest] with a word boundary on each
    side; [prev] is the character before [rest]. *)
Definition whole_word_here (token : string) (prev : option ascii) (rest : string) : bool :=
  Str.startswith token rest
  && at_boundary prev rest
  && at_boundary (last_char_from prev token) (drop_chars (String.length token) rest).

Fixpoint whole_word_from (token : string) (prev : option ascii) (rest : string) : bool :=
  whole_word_here token prev rest
  || match rest with
     | String c t => whole_word_from token (Some c) t
     | EmptyString => false
     end.

(** The token occurs somewhere in the text as a whole word, that is, not
    as part of a larger word. *)
Definition word_occurrence (token text : string) : bool :=
  whole_word_from token None text.


(** A result that passed the validation gate: it parses as a calendar date
    whose year lies in the window. *)
Definition in_validity_window (result : string) : Prop :=
  exists d, Date.strptime result = Some d
            /\ Date.valid d = true
            /\ (2000 <= Date.year d <= 2030)%Z.

(** ** The rest of the analysis code *)

(** *** [_extract_countries]: the variant without counts *)

(** One iteration of its loop: [re.search] decides, no count is kept. *)
Definition countries_step (text_lower : string) (found_countries : list string)
           (country : string) : list string :=
  let country_lower := Str.lower country in
  match search false (country_pattern country_lower) text_lower with
  | Some _ =>
      let normalized := _normalize_country_name country in
      if bool_decide (normalized ∈ found_countries) then found_countries
      else (found_countries ++ [normalized])%list
  | None => found_countries
  end.

Definition _extract_countries (set_order : list string) (text : pyval)
  : pyres (list string) :=
  text_lower <~ py_lower text ;;
  let sorted_countries := sorted_by_len_desc set_order in
  Ok (fold_left (countries_step text_lower) sorted_countries []).

(** *** [Article] and [analyze_articles] *)

Module Article.

(** The dataclass [Article]; [__post_init__] resets the three containers. *)
Record t : Type := Make {
  title : string;
  url : string;
  snippet : string;
  date : option string;
  full_content : option string;
  industries : list string;
  countries : list string;
  country_mentions : gmap string nat;
  attack_method : option string
}.

End Article.

Module StrList.

(** [sep.join(parts)] *)
Fixpoint join (sep : string) (parts : list string) : string :=
  match parts with
  | [] => EmptyString
  | [p] => p
  | p :: rest => p ++ sep ++ join sep rest
  end.

(** [s.count(c)] for a one-character [c]. *)
Fixpoint count_char (c : ascii) (s : string) : nat :=
  match s with
  | EmptyString => O
  | String a t => (if Ascii.eqb a c then 1 else 0) + count_char c t
  end.

End StrList.

Definition newline : string := String "010" EmptyString.

(** The loop that keeps the lines of the main body: a line is stripped,
    dropped when shorter than 3 characters, and dropped when it contains
    ['http'] (in any case) or more than three slashes. *)
Fixpoint filtered_lines (lines : list string) : list string :=
  match lines with
  | [] => []
  | line :: rest =>
      let line := Str.strip line in
      if Nat.ltb (String.length line) 3 then filtered_lines rest
      else if Str.contains "http" (Str.lower line)
              || Nat.ltb 3 (StrList.count_char "/" line)
      then filtered_lines rest
      else line :: filtered_lines rest
  end.

(** [int(len(content_lines) * 0.75)]: the product is exact in floating
    point (for fewer than 2^51 lines), so the result is the integer part of
    three quarters of the length. *)
Definition three_quarters (n : nat) : nat := Nat.div (3 * n) 4.

(** The main body kept from the full content of an article. *)
Definition main_body_of (full_content : string) : string :=
  let content_lines := Str.split_lines full_content in
  let main_body_lines := take (three_quarters (length content_lines)) content_lines in
  let main_body := StrList.join newline main_body_lines in
  StrList.join " " (filtered_lines (Str.split_lines main_body)).

(** The text that [analyze_articles] passes to the three classifiers. *)
Definition analysis_text (article : Article.t) : string :=
  match Article.full_content article with
  | Some content =>
      if truthy content
      then Str.lower (Article.title article ++ " " ++ main_body_of content)
      else Str.lower (Article.title article ++ " " ++ Article.snippet article)
  | None => Str.lower (Article.title article ++ " " ++ Article.snippet article)
  end.

(** The body of the loop of [analyze_articles] for one article.  The three
    assignments happen in order inside [try]; when one raises, the article
    keeps what was assigned before (the handler only replaces containers
    that are [None], and [__post_init__] has made them empty). *)
Definition analyze_article (set_order : list string) (article : Article.t) : Article.t :=
  let text := PyStr (analysis_text article) in
  match _extract_industries text with
  | Raise _ => article
  | Ok found_industries =>
      let a1 :=
        Article.Make (Article.title article) (Article.url article)
          (Article.snippet article) (Article.date article)
          (Article.full_content article) found_industries
          (Article.countries article) (Article.country_mentions article)
          (Article.attack_method article) in
      match _extract_countries_with_counts set_order text with
      | Raise _ => a1
      | Ok (found_countries, mentions) =>
          let a2 :=
            Article.Make (Article.title article) (Article.url article)
              (Article.snippet article) (Article.date article)
              (Article.full_content article) found_industries
              found_countries mentions (Article.attack_method article) in
          match _determine_attack_method text with
          | Raise _ => a2
          | Ok method =>
              Article.Make (Article.title article) (Article.url article)
                (Article.snippet article) (Article.date article)
                (Article.full_content article) found_industries
                found_countries mentions (Some method)
          end
      end
  end.

Definition analyze_articles (set_order : list string) (articles : list Article.t)
  : list Article.t :=
  List.map (analyze_article set_order) articles.

(** *** [export_unknown_articles] *)

(** [x or 'unknown'] for an optional string. *)
Definition or_unknown (attack_method : option string) : string :=
  match attack_method with
  | Some s => if truthy s then s else "unknown"
  | None => "unknown"
  end.

(** The test [method not in ['direct', 'proxy']] on the lower-cased method. *)
Definition is_unknown_method (attack_method : option string) : bool :=
  let method := Str.lower (or_unknown attack_method) in
  negb (String.eqb method "direct" || String.eqb method "proxy").

(** The list [unknown_articles] of URLs that the function writes out. *)
Definition unknown_articles (articles : list Article.t) : list string :=
  List.map Article.url
    (List.filter (fun article => is_unknown_method (Article.attack_method article))
                 articles).

(** *** [search_google]: the number of result pages *)

(** [min((max_results + results_per_page - 1) // results_per_page, max_pages)]
    with [results_per_page = 10] and [max_pages = 30]. *)
Definition pages_needed (max_results : Z) : Z :=
  Z.min ((max_results + 10 - 1) / 10) 30.

(** *** Notions used in the statements on the pipeline *)

(** Whether some character of [s] satisfies [p]. *)
Fixpoint any_char (p : ascii -> bool) (s : string) : bool :=
  match s with
  | EmptyString => false
  | String c t => p c || any_char p t
  end.

Definition is_ascii_lower (c : ascii) : bool := Chr.ascii_lower_code (Chr.code c).

(** The industry labels of the taxonomy, in its order. *)
Definition industry_labels : list string := List.map fst INDUSTRY_KEYWORDS.

(** Whether one of the keywords, lower-cased, occurs in the text. *)
Definition keyword_occurs (keywords : list string) (text : string) : bool :=
  existsb (fun keyword => Str.contains (Str.lower keyword) text) keywords.


(** *** What a regular expression matches, stated as a relation

    [den ic r st st'] holds when [r] can take the matcher from position
    [st] to position [st']: the characters between belong to [r], and the
    groups of [r] have been recorded.  The matcher [rx] is sound for it. *)

Fixpoint all_chars (p : ascii -> bool) (s : string) : bool :=
  match s with
  | EmptyString => true
  | String c t => p c && all_chars p t
  end.

Definition within (hi : option nat) (n : nat) : Prop :=
  match hi with
  | None => True
  | Some h => n <= h
  end.

Fixpoint den (ic : bool) (r : regex) (st st' : mstate) : Prop :=
  match r with
  | Eps => st' = st
  | Cls k =>
      exists c t,
        st_rest st = String c t /\ cmatch ic k c = true
        /\ st' = MState (Some c) t (S (st_pos st)) (st_caps st)
  | Cat r1 r2 => exists mid, den ic r1 st mid /\ den ic r2 mid st'
  | Alt r1 r2 => den ic r1 st st' \/ den ic r2 st st'
  | Rep k lo hi =>
      exists cs,
        st_rest st = cs ++ st_rest st'
        /\ all_chars (cmatch ic k) cs = true
        /\ lo <= String.length cs /\ within hi (String.length cs)
        /\ st_prev st' = last_char_from (st_prev st) cs
        /\ st_pos st' = st_pos st + String.length cs
        /\ st_caps st' = st_caps st
  | Grp i r1 =>
      exists st1,
        den ic r1 st st1
        /\ st' = MState (st_prev st1) (st_rest st1) (st_pos st1)
                        ((i, Str.take (st_pos st1 - st_pos st) (st_rest st)) :: st_caps st1)
  | Bnd => at_boundary (st_prev st) (st_rest st) = true /\ st' = st
  end.

(** All 256 characters. *)
Definition all_ascii : list ascii :=
  List.map (fun n => ascii_of_N (N.of_nat n)) (seq 0 256).

(** Every character of class [k] satisfies [p]. *)
Definition class_within (ic : bool) (k : cclass) (p : ascii -> bool) : bool :=
  forallb (fun c => implb (cmatch ic k c) (p c)) all_ascii.

(** A sufficient condition for: every match of [r] contains a character
    that satisfies [p]. *)
Fixpoint needs (p : ascii -> bool) (ic : bool) (r : regex) : bool :=
  match r with
  | Eps => false
  | Cls k => class_within ic k p
  | Cat r1 r2 => needs p ic r1 || needs p ic r2
  | Alt r1 r2 => needs p ic r1 && needs p ic r2
  | Rep k lo hi => Nat.leb 1 lo && class_within ic k p
  | Grp i r1 => needs p ic r1
  | Bnd => false
  end.

(** What a group holds when its body is one repetition. *)
Definition body_ok (ic : bool) (r : regex) (cs : string) : Prop :=
  match r with
  | Rep k lo hi =>
      all_chars (cmatch ic k) cs = true
      /\ lo <= String.length cs /\ within hi (String.length cs)
  | _ => True
  end.

(** The groups that a match of [r] records, most recent first. *)
Fixpoint captures (ic : bool) (r : regex) (new : list (nat * string)) : Prop :=
  match r with
  | Cat r1 r2 =>
      exists n1 n2, new = (n2 ++ n1)%list /\ captures ic r1 n1 /\ captures ic r2 n2
  | Alt r1 r2 => captures ic r1 new \/ captures ic r2 new
  | Grp i r1 =>
      exists cs n1, new = (i, cs) :: n1 /\ captures ic r1 n1 /\ body_ok ic r1 cs
  | _ => new = []
  end.

(** *** The shape of a normalised date *)

Definition two_digits (s : string) : bool :=
  match s with
  | String a (String b EmptyString) => Chr.is_digit a && Chr.is_digit b
  | _ => false
  end.

Definition four_digits (s : string) : bool :=
  match s with
  | String a (String b t) => Chr.is_digit a && Chr.is_digit b && two_digits t
  | _ => false
  end.

(** [YYYY-MM-DD]: four digits, two digits and two digits, with hyphens. *)
Definition is_iso_shape (s : string) : bool :=
  match s with
  | String y1 (String y2 (String y3 (String y4 (String h1 (String m1 (String m2
      (String h2 (String d1 (String d2 EmptyString))))))))) =>
      forallb Chr.is_digit [y1; y2; y3; y4; m1; m2; d1; d2]
      && Ascii.eqb h1 "-" && Ascii.eqb h2 "-"
  | _ => false
  end.

(** A run of [lo] to [hi] decimal digits. *)
Definition digit_run (lo hi : nat) (s : string) : Prop :=
  all_chars Chr.is_digit s = true /\ lo <= String.length s /\ String.length s <= hi.

(** * Properties *)

(** ** Sanity checks of the string and regular-expression layer *)

Example lower_ex : Str.lower "Great Britain" = "great britain".
Proof. reflexivity. Qed.

Example title_ex : Str.title "united kingdom" = "United Kingdom".
Proof. reflexivity. Qed.

Example strip_ex : Str.strip "  3 days ago  " = "3 days ago".
Proof. reflexivity. Qed.

Example zfill_ex : Str.zfill 2 "5" = "05" /\ Str.zfill 2 "15" = "15".
Proof. split; reflexivity. Qed.

Example contains_ex :
  Str.contains "criminal" "criminals" = true /\ Str.contains "gru" "grudge" = true
  /\ Str.contains "fsb" "fs b" = false /\ Str.contains "" "" = true.
Proof. repeat split; reflexivity. Qed.

Example split_ex : Str.split_lines ("a" ++ String "010" "b" ++ String "010" "")
                   = ["a"; "b"; ""].
Proof. reflexivity. Qed.

Example re_ex1 :
  option_map (fun m => (group 1 m, group 2 m, group 3 m))
    (search true
       (Cat (Grp 1 (Plus CWord)) (Cat (Plus CSpace) (Cat (Grp 2 (Rep CDigit 1 (Some 2)))
         (Cat (Opt (CChar ",")) (Cat (Plus CSpace) (Grp 3 (Rep CDigit 4 (Some 4))))))))
       "on Jan 15, 2020.")
  = Some ("Jan", "15", "2020").
Proof. reflexivity. Qed.

Example re_ex2 :
  List.map m_start (finditer false (Cat Bnd (Cat (Lit "uk") Bnd)) "uk, ukraine and the uk")
  = [0; 20]%nat.
Proof. reflexivity. Qed.

Example re_ex3 : finditer false (Cat Bnd (Cat (Lit "russia") Bnd)) "russian sabotage" = [].
Proof. reflexivity. Qed.

Example ord_ex :
  Date._ymd2ord (Date.Date 2024 6 10) = 739047%Z /\
  Date._ord2ymd 739047 = Date.Date 2024 6 10 /\
  Date._ord2ymd 730119 = Date.Date 1999 12 31 /\
  Date._ord2ymd 730179 = Date.Date 2000 2 29.
Proof. repeat split; reflexivity. Qed.

Example strptime_ex :
  Date.strptime "2020-01-15" = Some (Date.Date 2020 1 15) /\
  Date.strptime "2019-02-29" = None /\
  Date.strptime "2020-02-29" = Some (Date.Date 2020 2 29) /\
  Date.strptime "2020-13-01" = None /\
  Date.strptime "2020-1-5" = Some (Date.Date 2020 1 5) /\
  Date.strptime "2020-01-150" = None.
Proof. repeat split; reflexivity. Qed.

Example strftime_ex : Date.strftime (Date.Date 2024 6 7) = "2024-06-07".
Proof. reflexivity. Qed.

(** ** Sanity checks of the embedded functions, on the examples of the
       source's comments *)

Example parse_date_ex :
  _parse_date None "Jan 15, 2020" = Some "2020-01-15" /\
  _parse_date None "Nov 16 2025" = Some "2025-11-16" /\
  _parse_date None "16 March 2024" = Some "2024-03-16" /\
  _parse_date None "2020/1/5" = Some "2020-01-05" /\
  _parse_date None "13/02/2019" = Some "2019-02-13" /\
  _parse_date None "02/13/2019" = Some "2019-02-13" /\
  _parse_date None "2020.01.15" = Some "2020-01-15" /\
  _parse_date None "January 2020" = Some "2020-01-01" /\
  _parse_date None "no date here" = None.
Proof. repeat split; vm_compute; reflexivity. Qed.

Example parse_google_date_ex :
  _parse_google_date None (Date.Date 2024 6 10) "3 days ago" = Some "2024-06-07" /\
  _parse_google_date None (Date.Date 2024 6 10) "2 weeks ago" = Some "2024-05-27" /\
  _parse_google_date None (Date.Date 2024 6 10) "1 month ago" = Some "2024-05-11" /\
  _parse_google_date None (Date.Date 2024 6 10) "Yesterday" = Some "2024-06-09" /\
  _parse_google_date None (Date.Date 2024 6 10) "Jan 15, 2020" = Some "2020-01-15".
Proof. repeat split; vm_compute; reflexivity. Qed.

Example extract_date_from_text_ex :
  _extract_date_from_text None "Sabotage in the Baltic
Published: January 15, 2020 by staff" = Some "2020-01-15" /\
  _extract_date_from_text None "The cable was cut in 2019-11-03, officials said."
  = None /\
  _extract_date_from_text None "The cable was cut in 2023-11-03, officials said."
  = Some "2023-11-03".
Proof. repeat split; vm_compute; reflexivity. Qed.

Example extract_industries_ex :
  _extract_industries (PyStr "a fire at the power plant near the railway")
  = Ok ["energy"; "transportation"; "manufacturing"].
Proof. vm_compute; reflexivity. Qed.

Example determine_attack_method_ex :
  _determine_attack_method (PyStr "the gru and the fsb recruited a gang") = Ok "unknown" /\
  _determine_attack_method (PyStr "the gru and the fsb") = Ok "direct".
Proof. split; vm_compute; reflexivity. Qed.

(** ** EntityExtractor: normalisation of registry tokens *)

Lemma forallb_elem_of {A : Type} (f : A -> bool) (l : list A) (x : A) :
  forallb f l = true -> x ∈ l -> f x = true.
Proof.
  intros Hall Hx. apply list_elem_of_In in Hx.
  exact (proj1 (forallb_forall f l) Hall x Hx).
Qed.

(** C1 (as the code behaves).  The token ['ukraine'] is in the recognised
    set and is an exact key of [mapping] with entry ['Ukraine'], yet
    [_normalize_country_name] returns ['United Kingdom']: the loop tests
    [key == country_lower or key in country_lower] key by key, and the
    earlier key ['uk'] is a substring of ['ukraine'].  Every other registry
    token that is a key of the table does get its own entry. *)
Theorem C1_ukraine_normalizes_to_united_kingdom :
  "ukraine" ∈ COUNTRY_KEYWORDS
  /\ OD.get "ukraine" mapping = Some "Ukraine"
  /\ Str.contains "uk" "ukraine" = true
  /\ _normalize_country_name "ukraine" = "United Kingdom"
  /\ forallb (fun t =>
        match OD.get t mapping with
        | Some v => String.eqb t "ukraine" || String.eqb (_normalize_country_name t) v
        | None => true
        end) COUNTRY_KEYWORDS = true.
Proof.
  split; [ apply list_elem_of_In; vm_compute; tauto | ].
  repeat split; vm_compute; reflexivity.
Qed.

(** C9 fails as stated: for the registry token ['austria'] the loop over
    [mapping] finds no key, and the title-case fallback produces the name. *)
Lemma C9_fallback_reached_for_austria :
  "austria" ∈ COUNTRY_KEYWORDS
  /\ mapping_loop mapping (Str.lower "austria") = None
  /\ ~ (forall token, token ∈ COUNTRY_KEYWORDS -> resolves_through_table token = true).
Proof.
  assert (Hin : "austria" ∈ COUNTRY_KEYWORDS)
    by (apply list_elem_of_In; vm_compute; tauto).
  split; [exact Hin | split; [vm_compute; reflexivity | ]].
  intros H. specialize (H "austria" Hin). vm_compute in H. discriminate.
Qed.

(** C9 (amended).  Normalisation is a total function on the recognised set.
    Every token except ['united kingdom'], ['austria'] and ['switzerland']
    resolves through an entry of [mapping] (a key equal to the token or
    occurring in it); those three reach the title-case fallback, which
    yields the token title-cased. *)
Theorem C9_registry_tokens_resolve (token : string) :
  token ∈ COUNTRY_KEYWORDS ->
  exists canonical,
    _normalize_country_name token = canonical
    /\ (resolves_through_table token = false <-> token ∈ unmapped_tokens)
    /\ (resolves_through_table token = true ->
        exists key, OD.get key mapping = Some canonical
                    /\ Str.contains key (Str.lower token) = true)
    /\ (resolves_through_table token = false -> canonical = Str.title token).
Proof.
  intros Hin. exists (_normalize_country_name token).
  split; [reflexivity | ].
  assert (Hchk : forallb (fun t =>
     Bool.eqb (negb (resolves_through_table t))
              (bool_decide (t ∈ unmapped_tokens))
     && match mapping_loop mapping (Str.lower t) with
        | Some v =>
            existsb (fun kv => String.eqb (snd kv) v
                               && String.eqb (snd kv) (_normalize_country_name t)
                               && match OD.get (fst kv) mapping with
                                  | Some v' => String.eqb v' v
                                  | None => false
                                  end
                               && Str.contains (fst kv) (Str.lower t)) mapping
        | None => String.eqb (_normalize_country_name t) (Str.title t)
        end) COUNTRY_KEYWORDS = true) by (vm_compute; reflexivity).
  pose proof (forallb_elem_of _ _ _ Hchk Hin) as H. cbv beta in H.
  apply andb_true_iff in H as [H1 H2].
  apply Bool.eqb_prop in H1.
  unfold resolves_through_table in *.
  destruct (mapping_loop mapping (Str.lower token)) as [v|] eqn:E.
  - simpl in H1. symmetry in H1. apply bool_decide_eq_false in H1.
    split; [ split; [intros; discriminate | intros; contradiction] | ].
    split; [ | intros; discriminate ].
    intros _. apply existsb_exists in H2 as [[k v0] [_ H2]]. cbn [fst snd] in H2.
    repeat (apply andb_true_iff in H2 as [H2 ?]).
    apply String.eqb_eq in H2. subst v0.
    exists k. split; [ | assumption ].
    destruct (OD.get k mapping) as [v'|]; [ | congruence ].
    f_equal.
    repeat match goal with
           | H : String.eqb _ _ = true |- _ => apply String.eqb_eq in H
           end.
    congruence.
  - simpl in H1. symmetry in H1. apply bool_decide_eq_true in H1.
    split; [ split; [intros _; exact H1 | reflexivity] | ].
    split; [ intros; discriminate | ].
    intros _. apply String.eqb_eq in H2. exact H2.
Qed.

Lemma C9_registry_tokens_resolve_witness :
  exists canonical,
    _normalize_country_name "czechia" = canonical
    /\ (resolves_through_table "czechia" = false <-> "czechia" ∈ unmapped_tokens)
    /\ (resolves_through_table "czechia" = true ->
        exists key, OD.get key mapping = Some canonical
                    /\ Str.contains key (Str.lower "czechia") = true)
    /\ (resolves_through_table "czechia" = false -> canonical = Str.title "czechia").
Proof.
  apply (C9_registry_tokens_resolve "czechia").
  apply list_elem_of_In. vm_compute. tauto.
Defined.

(** ** AttributionClassifier *)

Lemma startswith_contains (needle hay : string) :
  Str.startswith needle hay = true -> Str.contains needle hay = true.
Proof. intros H. destruct hay; simpl; rewrite H; reflexivity. Qed.

Lemma contains_append_l (needle pre hay : string) :
  Str.contains needle hay = true -> Str.contains needle (pre ++ hay) = true.
Proof.
  intros H. induction pre as [|c pre IH]; simpl; [exact H | ].
  rewrite IH. destruct (Str.startswith needle (String c (pre ++ hay))); reflexivity.
Qed.

Lemma lower_append (s1 s2 : string) :
  Str.lower (s1 ++ s2) = Str.lower s1 ++ Str.lower s2.
Proof.
  unfold Str.lower. induction s1 as [|c s1 IH]; simpl; [reflexivity | ].
  rewrite IH. reflexivity.
Qed.

Lemma score_at_least_two (k1 k2 : string) (l1 l2 l3 : list string) (text : string) :
  Str.contains k1 text = true -> Str.contains k2 text = true ->
  2 <= score (l1 ++ k1 :: l2 ++ k2 :: l3) text.
Proof.
  intros H1 H2. unfold score.
  rewrite List.filter_app, length_app. simpl. rewrite H1. simpl.
  rewrite List.filter_app, length_app. simpl. rewrite H2. simpl. lia.
Qed.

(** C8.  For every text the verdict is ['direct'] exactly when
    [direct_score > proxy_score], ['proxy'] exactly when
    [proxy_score > direct_score], and ['unknown'] exactly on a tie
    (the 0-0 case included). *)
Theorem C8_attack_method_decision (text : string) :
  exists verdict,
    _determine_attack_method (PyStr text) = Ok verdict
    /\ (verdict = "direct" <-> proxy_score (Str.lower text) < direct_score (Str.lower text))
    /\ (verdict = "proxy" <-> direct_score (Str.lower text) < proxy_score (Str.lower text))
    /\ (verdict = "unknown" <-> direct_score (Str.lower text) = proxy_score (Str.lower text)).
Proof.
  unfold _determine_attack_method. simpl.
  destruct (Nat.ltb_spec (proxy_score (Str.lower text)) (direct_score (Str.lower text)))
    as [Hd|Hd].
  - exists "direct". repeat split; intros; try lia; try discriminate.
  - destruct (Nat.ltb_spec (direct_score (Str.lower text)) (proxy_score (Str.lower text)))
      as [Hp|Hp].
    + exists "proxy". repeat split; intros; try lia; try discriminate.
    + exists "unknown". repeat split; intros; try lia; try discriminate.
Qed.

(** C10.  The text ['criminals'] matches both proxy keywords ['criminals']
    and ['criminal'] and no state-actor keyword: its proxy score is 2, its
    direct score 0, and the verdict is ['proxy'].  More generally one
    occurrence of the word contributes at least 2 to the proxy score of any
    text around it. *)
Theorem C10_criminals_counts_twice :
  proxy_score (Str.lower "criminals") = 2
  /\ direct_score (Str.lower "criminals") = 0
  /\ List.filter (fun keyword => Str.contains keyword "criminals") SECURITY_SERVICES_proxy
     = ["criminals"; "criminal"]
  /\ _determine_attack_method (PyStr "criminals") = Ok "proxy"
  /\ forall before after : string,
       2 <= proxy_score (Str.lower (before ++ "criminals" ++ after)).
Proof.
  split; [vm_compute; reflexivity | ].
  split; [vm_compute; reflexivity | ].
  split; [vm_compute; reflexivity | ].
  split; [vm_compute; reflexivity | ].
  intros before after. rewrite !lower_append.
  change (Str.lower "criminals") with "criminals".
  unfold proxy_score.
  match goal with
  | |- context [score ?l _] =>
      change l with
        (["hacker group"; "cybercriminal"; "activist"; "drug"; "criminal group"]
           ++ "criminals"
           :: ["separatist"; "militia"; "drug dealer"; "drug lord"; "gang"; "gangs";
               "recruit"; "traitor"]
           ++ "criminal"
           :: ["felon"; "extremist"; "extremists"; "extremist group"; "extremist groups";
               "ultranationalist"; "ultranationalists"; "ultranationalist group";
               "ultranationalist groups"])%list
  end.
  apply score_at_least_two;
    apply contains_append_l, startswith_contains; reflexivity.
Qed.

(** ** Totality of the classification functions *)

Lemma any_keyword_str (keywords : list string) (s : string) :
  exists hit, any_keyword keywords (PyStr s) = Ok hit.
Proof.
  induction keywords as [|k ks IH]; simpl; [eauto | ].
  destruct (Str.contains (Str.lower k) s); eauto.
Qed.

Lemma industries_loop_str (items : list (string * list string)) (s : string)
      (found : list string) :
  exists industries, industries_loop items (PyStr s) found = Ok industries.
Proof.
  revert found. induction items as [|[industry keywords] rest IH]; intros found; simpl;
    [eauto | ].
  destruct (any_keyword_str keywords s) as [hit ->]. simpl. apply IH.
Qed.

(** No registry pattern matches in the empty text. *)
Lemma country_step_empty (acc : list string * gmap string nat) (country : string) :
  country_step "" acc country = acc.
Proof. destruct acc as [found mentions]. reflexivity. Qed.

Lemma fold_country_step_empty (countries : list string)
      (acc : list string * gmap string nat) :
  fold_left (country_step "") countries acc = acc.
Proof.
  induction countries as [|c cs IH]; simpl; [reflexivity | ].
  rewrite country_step_empty. exact IH.
Qed.

(** C5 fails as stated: on [None] every classification function raises. *)
Lemma C5_none_raises :
  _extract_industries PyNone = Raise TypeError
  /\ (forall set_order, _extract_countries_with_counts set_order PyNone = Raise AttributeError)
  /\ _determine_attack_method PyNone = Raise AttributeError
  /\ ~ (forall text : pyval, text = PyNone \/ text = PyStr "" ->
          _extract_industries text = Ok []).
Proof.
  repeat split.
  intros H. specialize (H PyNone (or_introl eq_refl)). discriminate H.
Qed.

(** C5 (amended).  On every string the three classification functions
    return a result and raise nothing; on the empty string
    [_extract_industries] returns the empty list,
    [_extract_countries_with_counts] the empty list and the empty mapping,
    and [_determine_attack_method] the verdict ['unknown'].  ([None] is
    outside the annotated domain [text: str].) *)
Theorem C5_total_on_strings :
  (forall s, exists industries, _extract_industries (PyStr s) = Ok industries)
  /\ (forall set_order s, exists countries mentions,
        _extract_countries_with_counts set_order (PyStr s) = Ok (countries, mentions))
  /\ (forall s, exists verdict, _determine_attack_method (PyStr s) = Ok verdict)
  /\ _extract_industries (PyStr "") = Ok []
  /\ (forall set_order, _extract_countries_with_counts set_order (PyStr "") = Ok ([], ∅))
  /\ _determine_attack_method (PyStr "") = Ok "unknown".
Proof.
  split; [ intros s; apply industries_loop_str | ].
  split.
  { intros set_order s. unfold _extract_countries_with_counts. simpl.
    destruct (fold_left _ _ _) as [countries mentions]. eauto. }
  split.
  { intros s. unfold _determine_attack_method. simpl.
    repeat match goal with |- context [Nat.ltb ?a ?b] => destruct (Nat.ltb a b) end;
      eauto. }
  split; [ vm_compute; reflexivity | ].
  split; [ | vm_compute; reflexivity ].
  intros set_order. unfold _extract_countries_with_counts. simpl.
  rewrite fold_country_step_empty. reflexivity.
Qed.

(** ** DateNormalizer: the ambiguous numeric form *)

Lemma zrange_elem (a lo : Z) (n : nat) :
  (lo <= a < lo + Z.of_nat n)%Z -> In a (zrange lo n).
Proof.
  revert lo. induction n as [|n IH]; intros lo H; simpl; [lia | ].
  destruct (Z.eq_dec lo a) as [->|Hne]; [left; reflexivity | right].
  apply IH. lia.
Qed.

Lemma numeral_forms_elem (a : Z) (pad : bool) :
  (1 <= a <= 12)%Z -> In (a, pad || (9 <? a)%Z) numeral_forms.
Proof.
  intros Ha. pose proof (zrange_elem a 1 12 ltac:(lia)) as H. simpl in H.
  repeat (destruct H as [<-|H]; [destruct pad; vm_compute; tauto | ]).
  contradiction.
Qed.

Lemma numeral_pad (a : Z) (pad : bool) :
  numeral pad a = numeral (pad || (9 <? a)%Z) a.
Proof. unfold numeral. destruct pad, (9 <? a)%Z; reflexivity. Qed.

Lemma month_first_all :
  forallb (fun a => forallb (fun b => forallb (fun y => month_first_check a b y)
    (zrange 2000 31)) numeral_forms) numeral_forms = true.
Proof. vm_compute. reflexivity. Qed.

(** The formatter itself: when neither number exceeds 12 the first group is
    written in the month position and the second in the day position. *)
Lemma try_eu_or_us_ambiguous (m : match_obj) (d mo : Z) :
  Str.int (group 1 m) = Some d -> Str.int (group 2 m) = Some mo ->
  (d <= 12)%Z -> (mo <= 12)%Z ->
  _try_eu_or_us_format m
  = Some (group 3 m ++ "-" ++ Str.zfill 2 (group 1 m) ++ "-" ++ Str.zfill 2 (group 2 m)).
Proof.
  intros Hd Hmo Hd12 Hmo12. unfold _try_eu_or_us_format. rewrite Hd, Hmo.
  destruct (Z.ltb_spec 12 d); [lia | ].
  destruct (Z.ltb_spec 12 mo); [lia | reflexivity].
Qed.

(** C3 fails as stated: ['05/02/2019'] normalises to May 2, not February 5. *)
Lemma C3_05_02_2019_is_may_second :
  _parse_date None "05/02/2019" = Some "2019-05-02"
  /\ _parse_date None "05/02/2019" <> Some "2019-02-05".
Proof. split; [vm_compute; reflexivity | vm_compute; discriminate]. Qed.

(** C3 (amended).  For every numeric date string [a/b/YYYY] with both
    numbers between 1 and 12 (written with or without a leading zero) and a
    year in the validity window, normalisation reads the first number as the
    month and the second as the day (US order): the result is [YYYY-aa-bb]. *)
Theorem C3_ambiguous_numeric_is_month_first (a b y : Z) (pad_a pad_b : bool) :
  (1 <= a <= 12)%Z -> (1 <= b <= 12)%Z -> (2000 <= y <= 2030)%Z ->
  _parse_date None (numeral pad_a a ++ "/" ++ numeral pad_b b ++ "/" ++ Str.dec4 y)
  = Some (Str.dec4 y ++ "-" ++ Str.dec2 a ++ "-" ++ Str.dec2 b).
Proof.
  intros Ha Hb Hy.
  rewrite (numeral_pad a pad_a), (numeral_pad b pad_b).
  pose proof month_first_all as H.
  rewrite forallb_forall in H. specialize (H _ (numeral_forms_elem a pad_a Ha)).
  rewrite forallb_forall in H. specialize (H _ (numeral_forms_elem b pad_b Hb)).
  rewrite forallb_forall in H. specialize (H y (zrange_elem y 2000 31 ltac:(lia))).
  unfold month_first_check in H. cbn [fst snd] in H.
  destruct (_parse_date None _) as [r|]; [ | discriminate].
  apply String.eqb_eq in H. congruence.
Qed.

Lemma C3_ambiguous_numeric_is_month_first_witness :
  _parse_date None (numeral true 5 ++ "/" ++ numeral true 2 ++ "/" ++ Str.dec4 2019)
  = Some (Str.dec4 2019 ++ "-" ++ Str.dec2 5 ++ "-" ++ Str.dec2 2).
Proof.
  apply (C3_ambiguous_numeric_is_month_first 5 2 2019 true true); lia.
Defined.

(** ** EntityExtractor: mention counts *)

Lemma insert_by_len_perm (x : string) (l : list string) :
  insert_by_len x l ≡ₚ x :: l.
Proof.
  induction l as [|y l IH]; simpl; [reflexivity | ].
  destruct (Nat.ltb _ _); [ | reflexivity].
  rewrite IH. apply Permutation_swap.
Qed.

Lemma sorted_by_len_desc_perm (l : list string) : sorted_by_len_desc l ≡ₚ l.
Proof.
  induction l as [|x l IH]; simpl; [reflexivity | ].
  rewrite insert_by_len_perm, IH. reflexivity.
Qed.


Lemma mention_sum_cons (t : string) (l : list string) (c tl : string) :
  mention_sum (t :: l) c tl
  = (if decide (_normalize_country_name t = c) then occurrences t tl else 0)
    + mention_sum l c tl.
Proof.
  unfold mention_sum. rewrite filter_cons.
  destruct (decide (_normalize_country_name t = c)); reflexivity.
Qed.

Lemma mention_sum_pos_token (l : list string) (c tl : string) :
  1 <= mention_sum l c tl -> exists t, t ∈ l /\ _normalize_country_name t = c.
Proof.
  induction l as [|t l IH]; [unfold mention_sum; simpl; lia | ].
  rewrite mention_sum_cons. intros H.
  destruct (decide (_normalize_country_name t = c)) as [E|E].
  - exists t. split; [left | exact E].
  - destruct IH as [t' [Hin Ht']]; [lia | ]. exists t'. split; [right; exact Hin | exact Ht'].
Qed.

Section Step.
Variable tl : string.

Lemma country_step_spec (found : list string) (m : gmap string nat) (t : string) :
  let r := country_step tl (found, m) t in
  (forall c, default 0 (r.2 !! c) = default 0 (m !! c) + added tl t c)
  /\ (forall c, c ∈ r.1 <-> c ∈ found \/ 1 <= added tl t c)
  /\ (forall c, is_Some (r.2 !! c) <-> is_Some (m !! c) \/ 1 <= added tl t c)
  /\ (NoDup found -> NoDup r.1).
Proof.
  unfold added, occurrences, country_step.
  destruct (finditer false (country_pattern (Str.lower t)) tl) as [|m0 ms] eqn:E.
  - simpl. repeat split; intros; try tauto.
    + destruct (decide _); lia.
    + destruct H as [H|H]; [exact H | destruct (decide _); lia].
    + destruct H as [H|H]; [exact H | destruct (decide _); lia].
  - set (n := _normalize_country_name t).
    set (cnt := length (m0 :: ms)).
    assert (Hcnt : 1 <= cnt) by (unfold cnt; simpl; lia).
    assert (Hm : forall c, default 0 (<[n:=default 0 (m !! n) + cnt]> m !! c)
                           = default 0 (m !! c) + (if decide (n = c) then cnt else 0)).
    { intros c. destruct (decide (n = c)) as [->|Hne].
      - rewrite lookup_insert_eq. reflexivity.
      - rewrite lookup_insert_ne by exact Hne. lia. }
    assert (Hs : forall c, is_Some (<[n:=default 0 (m !! n) + cnt]> m !! c)
                           <-> is_Some (m !! c) \/ 1 <= (if decide (n = c) then cnt else 0)).
    { intros c. destruct (decide (n = c)) as [->|Hne].
      - rewrite lookup_insert_eq. split; [intros _; right; lia | intros _; eauto].
      - rewrite lookup_insert_ne by exact Hne. split; [tauto | intros [H|H]; [exact H | lia]]. }
    destruct (bool_decide (n ∈ found)) eqn:Hb.
    + apply bool_decide_eq_true in Hb. simpl.
      repeat split; try apply Hm; try apply Hs; try tauto.
      intros [H|H]; [exact H | ].
      destruct (decide (n = c)) as [<-|]; [exact Hb | lia].
    + apply bool_decide_eq_false in Hb. simpl.
      repeat split; try apply Hm; try apply Hs.
      * rewrite elem_of_app, list_elem_of_singleton.
        intros [H|H]; [left; exact H | right]. subst c.
        destruct (decide (n = n)); [lia | congruence].
      * rewrite elem_of_app, list_elem_of_singleton.
        intros [H|H]; [left; exact H | right].
        destruct (decide (n = c)); [congruence | lia].
      * intros Hnd. apply NoDup_app. split; [exact Hnd | ].
        split; [ | apply NoDup_singleton].
        intros x Hx Hx'. apply list_elem_of_singleton in Hx'. subst x. contradiction.
Qed.

Lemma fold_country_step_spec (l : list string) (found : list string) (m : gmap string nat) :
  let r := fold_left (country_step tl) l (found, m) in
  (forall c, default 0 (r.2 !! c) = default 0 (m !! c) + mention_sum l c tl)
  /\ (forall c, c ∈ r.1 <-> c ∈ found \/ 1 <= mention_sum l c tl)
  /\ (forall c, is_Some (r.2 !! c) <-> is_Some (m !! c) \/ 1 <= mention_sum l c tl)
  /\ (NoDup found -> NoDup r.1).
Proof.
  revert found m. induction l as [|t l IH]; intros found m.
  - simpl. unfold mention_sum. simpl.
    repeat split; intros; try tauto; try lia.
    + destruct H as [H|H]; [exact H | lia].
    + destruct H as [H|H]; [exact H | lia].
  - cbn [fold_left].
    pose proof (country_step_spec found m t) as Hstep.
    destruct (country_step tl (found, m) t) as [found1 m1].
    cbn [fst snd] in Hstep. destruct Hstep as (S1 & S2 & S3 & S4).
    specialize (IH found1 m1).
    destruct (fold_left (country_step tl) l (found1, m1)) as [found2 m2].
    cbn [fst snd] in *. destruct IH as (I1 & I2 & I3 & I4).
    assert (Hc : forall c, mention_sum (t :: l) c tl = added tl t c + mention_sum l c tl)
      by (intros c; apply mention_sum_cons).
    repeat split.
    + intros c. rewrite I1, S1, Hc. lia.
    + rewrite I2, S2, Hc. intros [[H|H]|H]; [left; exact H | right; lia | right; lia].
    + rewrite I2, S2, Hc. intros [H|H]; [left; left; exact H | ].
      destruct (Nat.le_gt_cases 1 (added tl t c)); [left; right; assumption | right; lia].
    + rewrite I3, S3, Hc. intros [[H|H]|H]; [left; exact H | right; lia | right; lia].
    + rewrite I3, S3, Hc. intros [H|H]; [left; left; exact H | ].
      destruct (Nat.le_gt_cases 1 (added tl t c)); [left; right; assumption | right; lia].
    + intros Hnd. apply I4, S4, Hnd.
Qed.
End Step.



(** ** EntityExtractor: the word-boundary rule *)

Lemma startswith_append (token post : string) :
  Str.startswith token (token ++ post) = true.
Proof.
  induction token as [|c token IH]; simpl; [reflexivity | ].
  rewrite Ascii.eqb_refl. exact IH.
Qed.

Lemma drop_chars_append (token post : string) :
  drop_chars (String.length token) (token ++ post) = post.
Proof.
  induction token as [|c token IH]; simpl; [destruct post; reflexivity | exact IH].
Qed.

Lemma startswith_split (token rest : string) :
  Str.startswith token rest = true ->
  rest = token ++ drop_chars (String.length token) rest.
Proof.
  revert rest. induction token as [|c token IH]; intros rest H; simpl.
  - destruct rest; reflexivity.
  - destruct rest as [|c' rest]; simpl in H; [discriminate | ].
    destruct (Ascii.eqb_spec c c') as [->|]; [ | discriminate].
    change (String c' rest = String c' (token ++ drop_chars (String.length token) rest)).
    f_equal. exact (IH rest H).
Qed.

(** A literal pattern consumes exactly its own characters. *)
Lemma rx_Lit {R : Type} (token : string) (st : mstate) (kont : mstate -> option R)
      (r : R) :
  rx false (Lit token) st kont = Some r ->
  exists post,
    st_rest st = token ++ post
    /\ kont (MState (last_char_from (st_prev st) token) post
                    (st_pos st + String.length token) (st_caps st)) = Some r.
Proof.
  revert st. induction token as [|c token IH]; intros [prev rest pos caps]; simpl.
  - intros H. exists rest. split; [reflexivity | ].
    rewrite Nat.add_0_r. exact H.
  - destruct rest as [|c' rest']; [discriminate | ].
    destruct (Ascii.eqb_spec c' c) as [->|Hne]; [ | discriminate].
    intros H. apply IH in H as [post [Hrest Hk]]. simpl in Hrest, Hk.
    exists post. split; [rewrite Hrest; reflexivity | ].
    rewrite <- Nat.add_succ_comm. exact Hk.
Qed.

(** Conversely, on its own characters a literal pattern goes through. *)
Lemma rx_Lit_append {R : Type} (token post : string) (prev : option ascii) (pos : nat)
      (caps : list (nat * string)) (kont : mstate -> option R) :
  rx false (Lit token) (MState prev (token ++ post) pos caps) kont
  = kont (MState (last_char_from prev token) post (pos + String.length token) caps).
Proof.
  revert prev pos. induction token as [|c token IH]; intros prev pos; simpl.
  - rewrite Nat.add_0_r. reflexivity.
  - rewrite Ascii.eqb_refl. rewrite IH. simpl. rewrite <- Nat.add_succ_comm. reflexivity.
Qed.

(** A match of a token's pattern at a position is a whole-word occurrence
    of the token there. *)
Lemma match_here_whole_word (token : string) (prev : option ascii) (rest : string)
      (pos : nat) (m : match_obj) :
  match_here false (country_pattern token) prev rest pos = Some m ->
  whole_word_here token prev rest = true.
Proof.
  unfold match_here, country_pattern. cbn [rx st_prev st_rest].
  destruct (at_boundary prev rest) eqn:Hb; [ | simpl; discriminate].
  match goal with
  | |- context [rx false (Lit token) ?st ?k] =>
      destruct (rx false (Lit token) st k) as [st'|] eqn:E; [ | simpl; discriminate]
  end.
  intros _. apply rx_Lit in E as [post [Hrest Hk]].
  cbn [st_prev st_rest st_pos st_caps] in Hrest, Hk.
  destruct (at_boundary (last_char_from prev token) post) eqn:Hb'; [ | discriminate].
  unfold whole_word_here. subst rest.
  rewrite startswith_append, Hb, drop_chars_append, Hb'. reflexivity.
Qed.

(** And a whole-word occurrence at a position is matched there. *)
Lemma whole_word_match_here (token : string) (prev : option ascii) (rest : string)
      (pos : nat) :
  whole_word_here token prev rest = true ->
  match_here false (country_pattern token) prev rest pos <> None.
Proof.
  unfold whole_word_here. intros H.
  apply andb_true_iff in H as [H Hb2]. apply andb_true_iff in H as [Hs Hb1].
  apply startswith_split in Hs. revert Hb2 Hs.
  generalize (drop_chars (String.length token) rest). intros post Hb2 ->.
  unfold match_here, country_pattern. cbn [rx st_prev st_rest]. rewrite Hb1.
  rewrite rx_Lit_append. cbn [rx st_prev st_rest]. rewrite Hb2. discriminate.
Qed.

Lemma scan_whole_word (token : string) (rest : string) :
  forall (prev : option ascii) (pos skip : nat),
    scan false (country_pattern token) prev rest pos skip <> [] ->
    whole_word_from token prev rest = true.
Proof.
  induction rest as [|c rest IH]; intros prev pos skip H.
  - destruct skip; simpl in H; [ | congruence].
    destruct (match_here false (country_pattern token) prev "" pos) as [m|] eqn:E;
      [ | congruence].
    simpl. rewrite (match_here_whole_word _ _ _ _ _ E). reflexivity.
  - destruct skip as [|k]; cbn [scan] in H.
    + destruct (match_here false (country_pattern token) prev (String c rest) pos)
        as [m|] eqn:E.
      * cbn [whole_word_from]. rewrite (match_here_whole_word _ _ _ _ _ E). reflexivity.
      * cbn [whole_word_from]. rewrite (IH _ _ _ H). apply orb_true_r.
    + cbn [whole_word_from]. rewrite (IH _ _ _ H). apply orb_true_r.
Qed.

Lemma whole_word_scan (token : string) (rest : string) :
  forall (prev : option ascii) (pos : nat),
    whole_word_from token prev rest = true ->
    scan false (country_pattern token) prev rest pos 0 <> [].
Proof.
  induction rest as [|c rest IH]; intros prev pos H; cbn [whole_word_from] in H.
  - rewrite orb_false_r in H. apply (whole_word_match_here _ _ _ pos) in H.
    simpl. destruct (match_here false (country_pattern token) prev "" pos);
      [discriminate | contradiction].
  - cbn [scan].
    destruct (match_here false (country_pattern token) prev (String c rest) pos)
      as [m|] eqn:E; [discriminate | ].
    apply orb_true_iff in H as [H|H].
    + apply (whole_word_match_here _ _ _ pos) in H. contradiction.
    + exact (IH _ _ H).
Qed.

(** Without a whole-word occurrence, [re.findall] finds nothing. *)
Lemma finditer_no_occurrence (token text : string) :
  word_occurrence token text = false ->
  finditer false (country_pattern token) text = [].
Proof.
  intros H. unfold finditer.
  destruct (scan false (country_pattern token) None text 0 0) as [|m ms] eqn:E;
    [reflexivity | ].
  assert (Hne : scan false (country_pattern token) None text 0 0 <> [])
    by (rewrite E; discriminate).
  apply scan_whole_word in Hne. unfold word_occurrence in H. congruence.
Qed.

(** A registry pattern matches somewhere exactly when the token occurs as
    a whole word. *)
Lemma occurrences_pos_iff (token text : string) :
  1 <= length (finditer false (country_pattern token) text)
  <-> word_occurrence token text = true.
Proof.
  split.
  - intros H. unfold finditer in H. apply (scan_whole_word token text None 0 0).
    intros E. rewrite E in H. simpl in H. lia.
  - intros H. apply (whole_word_scan token text None 0) in H. unfold finditer.
    destruct (scan false (country_pattern token) None text 0 0); [contradiction | simpl; lia].
Qed.

Lemma registry_tokens_lowercase (token : string) :
  token ∈ COUNTRY_KEYWORDS -> Str.lower token = token.
Proof.
  intros Hin.
  assert (H : forallb (fun t => String.eqb (Str.lower t) t) COUNTRY_KEYWORDS = true)
    by (vm_compute; reflexivity).
  apply String.eqb_eq. apply list_elem_of_In in Hin.
  exact (proj1 (forallb_forall _ _) H token Hin).
Qed.

Lemma fold_country_step_no_match (tl : string) (l : list string)
      (acc : list string * gmap string nat) :
  (forall t, t ∈ l -> finditer false (country_pattern (Str.lower t)) tl = []) ->
  fold_left (country_step tl) l acc = acc.
Proof.
  induction l as [|t l IH]; intros H; [reflexivity | ].
  cbn [fold_left].
  assert (Hstep : country_step tl acc t = acc).
  { unfold country_step. destruct acc as [found mentions].
    rewrite (H t) by left. reflexivity. }
  rewrite Hstep. apply IH. intros t' Ht'. apply H. right. exact Ht'.
Qed.

(** C7.  For every text that contains ['russian'] and in which no registry
    token occurs as a whole word (between word boundaries), country
    extraction returns the empty list and the empty mapping, whatever the
    iteration order of the registry set: a token that is only part of a
    larger word gives no match.  Occurrences are looked for where the code
    looks for them, in the lower-cased text, which for the lower-cased
    input of the contract is the text itself. *)
Theorem C7_no_match_inside_larger_word (set_order : list string) (text : string) :
  set_order ≡ₚ COUNTRY_KEYWORDS ->
  Str.contains "russian" (Str.lower text) = true ->
  (forall token, token ∈ COUNTRY_KEYWORDS ->
                 word_occurrence token (Str.lower text) = false) ->
  _extract_countries_with_counts set_order (PyStr text) = Ok ([], ∅).
Proof.
  intros Hperm _ Hnone. unfold _extract_countries_with_counts. cbn [py_lower bind].
  rewrite fold_country_step_no_match; [reflexivity | ].
  intros t Ht.
  assert (Hreg : t ∈ COUNTRY_KEYWORDS).
  { rewrite <- Hperm. rewrite <- (sorted_by_len_desc_perm set_order). exact Ht. }
  rewrite (registry_tokens_lowercase t Hreg).
  apply finditer_no_occurrence, Hnone, Hreg.
Qed.

Lemma C7_no_match_inside_larger_word_witness :
  _extract_countries_with_counts COUNTRY_KEYWORDS
    (PyStr "Russian sabotage of an Ukrainian power plant") = Ok ([], ∅).
Proof.
  apply (C7_no_match_inside_larger_word COUNTRY_KEYWORDS
           "Russian sabotage of an Ukrainian power plant").
  - reflexivity.
  - vm_compute. reflexivity.
  - intros token Hin. apply list_elem_of_In in Hin.
    assert (H : forallb (fun t =>
                  negb (word_occurrence t
                          (Str.lower "Russian sabotage of an Ukrainian power plant")))
                  COUNTRY_KEYWORDS = true) by (vm_compute; reflexivity).
    apply negb_true_iff. exact (proj1 (forallb_forall _ _) H token Hin).
Defined.

(** ** DateNormalizer: the validation gate *)

Lemma validate_date_window (result : string) :
  _validate_date result = true -> in_validity_window result.
Proof.
  unfold _validate_date, in_validity_window.
  destruct (Date.strptime result) as [d|] eqn:E; [ | discriminate].
  intros H. exists d. split; [reflexivity | ].
  split.
  - unfold Date.strptime in E.
    destruct (match_ true Date.format_regex result) as [m|]; [ | discriminate].
    destruct (negb _); [discriminate | ].
    destruct (Str.int (group 1 m)) as [y|]; [ | discriminate].
    destruct (Str.int (group 2 m)) as [mo|]; [ | discriminate].
    destruct (Str.int (group 3 m)) as [dd|]; [ | discriminate].
    destruct (Date.valid (Date.Date y mo dd)) eqn:V; [ | discriminate].
    injection E as <-. exact V.
  - destruct (Z.ltb_spec (Date.year d) 2000); [discriminate | ].
    destruct (Z.ltb_spec 2030 (Date.year d)); [discriminate | ]. lia.
Qed.

(** Every result of the loop over [patterns] went through [_validate_date]. *)
Lemma patterns_loop_validated (ps : list (regex * (match_obj -> option string)))
      (date_text result : string) :
  patterns_loop ps date_text = Some result -> _validate_date result = true.
Proof.
  induction ps as [|[pattern formatter] ps IH]; simpl; [discriminate | ].
  destruct (search true pattern date_text) as [m|]; [ | exact IH].
  destruct (formatter m) as [r|]; [ | exact IH].
  destruct (truthy r && _validate_date r) eqn:E; [ | exact IH].
  intros H. injection H as <-. apply andb_true_iff in E. tauto.
Qed.

(** A candidate that fails the gate is passed over: the loop goes on with
    the remaining patterns. *)
Lemma patterns_loop_rejects (pattern : regex) (formatter : match_obj -> option string)
      (rest : list (regex * (match_obj -> option string)))
      (date_text : string) (m : match_obj) (candidate : string) :
  search true pattern date_text = Some m ->
  formatter m = Some candidate ->
  _validate_date candidate = false ->
  patterns_loop ((pattern, formatter) :: rest) date_text = patterns_loop rest date_text.
Proof.
  intros Hs Hf Hv. simpl. rewrite Hs, Hf, Hv, andb_false_r. reflexivity.
Qed.

Lemma validate_date_rejects_year (candidate : string) (d : Date.date) :
  Date.strptime candidate = Some d ->
  (Date.year d < 2000 \/ 2030 < Date.year d)%Z ->
  _validate_date candidate = false.
Proof.
  intros Hp Hy. unfold _validate_date. rewrite Hp.
  destruct (Z.ltb_spec (Date.year d) 2000); [reflexivity | ].
  destruct (Z.ltb_spec 2030 (Date.year d)); [reflexivity | lia].
Qed.

Lemma parse_date_validated (text result : string) :
  _parse_date None text = Some result -> _validate_date result = true.
Proof.
  unfold _parse_date. destruct (negb (truthy text)); [discriminate | ].
  apply patterns_loop_validated.
Qed.

Lemma first_some_elem {A B : Type} (f : A -> option B) (l : list A) (b : B) :
  first_some f l = Some b -> exists a, a ∈ l /\ f a = Some b.
Proof.
  induction l as [|a l IH]; simpl; [discriminate | ].
  destruct (f a) as [b'|] eqn:E.
  - intros H. injection H as <-. exists a. split; [left | exact E].
  - intros H. destruct (IH H) as [a' [Hin Ha']]. exists a'. split; [right; exact Hin | exact Ha'].
Qed.

Lemma if_truthy_some (parsed : option string) (result : string) :
  if_truthy parsed = Some result -> parsed = Some result.
Proof.
  destruct parsed as [s|]; simpl; [ | discriminate].
  destruct (truthy s); [tauto | discriminate].
Qed.

Lemma extract_date_from_text_validated (text result : string) :
  _extract_date_from_text None text = Some result -> _validate_date result = true.
Proof.
  unfold _extract_date_from_text.
  destruct (first_some (try_line None) (take 30 (Str.split_lines text))) as [p|] eqn:E.
  - intros H. injection H as <-.
    apply first_some_elem in E as [line [_ E]]. unfold try_line in E.
    apply first_some_elem in E as [pattern [_ E]].
    destruct (search true pattern line) as [m|]; [ | discriminate].
    apply if_truthy_some in E. exact (parse_date_validated _ _ E).
  - intros H. apply first_some_elem in H as [candidate [_ H]].
    unfold try_candidate in H.
    destruct (if_truthy (_parse_date None candidate)) as [parsed|] eqn:P; [ | discriminate].
    apply if_truthy_some in P.
    destruct (Date.strptime parsed); [ | discriminate].
    destruct (_ && _); [ | discriminate].
    injection H as <-. exact (parse_date_validated _ _ P).
Qed.

(** C2 fails as stated: the relative-phrase strategy accepts a candidate of
    year 1999, which [_validate_date] would reject. *)
Lemma C2_relative_phrase_is_not_gated :
  _parse_google_date None (Date.Date 2024 6 10) "25 years ago" = Some "1999-06-17"
  /\ _validate_date "1999-06-17" = false.
Proof. split; vm_compute; reflexivity. Qed.

(** C2 (amended).  Every candidate of the explicit pattern table passes the
    validation gate before it is accepted.  Hence, with the fuzzy parser
    unavailable, whatever [_parse_date] or the text-scan fallback
    [_extract_date_from_text] returns is a calendar date whose year lies in
    [2000, 2030]; an input whose candidates all fall outside the window
    gives no result. *)
Theorem C2_pattern_table_results_are_gated (text result : string) :
  _parse_date None text = Some result
  \/ _extract_date_from_text None text = Some result ->
  _validate_date result = true /\ in_validity_window result.
Proof.
  intros H.
  assert (V : _validate_date result = true).
  { destruct H as [H|H];
      [exact (parse_date_validated _ _ H) | exact (extract_date_from_text_validated _ _ H)]. }
  split; [exact V | exact (validate_date_window _ V)].
Qed.

Lemma C2_pattern_table_results_are_gated_witness :
  _validate_date "2020-01-15" = true /\ in_validity_window "2020-01-15".
Proof.
  apply (C2_pattern_table_results_are_gated "Jan 15, 2020" "2020-01-15").
  left. vm_compute. reflexivity.
Defined.

Example out_of_window_years_give_no_date :
  _parse_date None "Jan 5, 1999" = None /\ _parse_date None "1999-12-31" = None
  /\ _parse_date None "2031-01-01" = None /\ _parse_date None "5 March 2031" = None
  /\ _parse_date None "31/12/1999" = None /\ _parse_date None "2031.01.01" = None
  /\ _parse_date None "March 2031" = None
  /\ _parse_date None "2030-12-31" = Some "2030-12-31"
  /\ _parse_date None "2000-01-01" = Some "2000-01-01"
  /\ _parse_date None "2021-02-30" = None
  /\ _extract_date_from_text None "Published: January 5, 1999" = None.
Proof. repeat split; vm_compute; reflexivity. Qed.

(** ** DateNormalizer: the fuzzy-parser shortcut *)



(** * Further properties of the code *)

(** ** [_extract_countries] and [_extract_countries_with_counts] *)

(** [re.search] finds something exactly when [re.findall] does. *)
Lemma search_from_scan (ic : bool) (r : regex) (rest : string) :
  forall (prev : option ascii) (pos : nat),
    search_from ic r prev rest pos = None <-> scan ic r prev rest pos 0 = [].
Proof.
  induction rest as [|c rest IH]; intros prev pos; simpl.
  - destruct (match_here ic r prev "" pos); split; intros; congruence.
  - destruct (match_here ic r prev (String c rest) pos); [split; intros; congruence | ].
    apply IH.
Qed.

Lemma countries_step_fst (tl : string) (found : list string) (m : gmap string nat)
      (t : string) :
  fst (country_step tl (found, m) t) = countries_step tl found t.
Proof.
  unfold country_step, countries_step, search, finditer.
  destruct (search_from false (country_pattern (Str.lower t)) None tl 0) as [m0|] eqn:E.
  - destruct (scan false (country_pattern (Str.lower t)) None tl 0 0) as [|m1 ms] eqn:E'.
    + apply search_from_scan in E'. congruence.
    + destruct (bool_decide _); reflexivity.
  - apply search_from_scan in E. rewrite E. reflexivity.
Qed.

Lemma fold_countries_step_fst (tl : string) (l : list string) :
  forall (found : list string) (m : gmap string nat),
    fst (fold_left (country_step tl) l (found, m)) = fold_left (countries_step tl) l found.
Proof.
  induction l as [|t l IH]; intros found m; [reflexivity | ].
  cbn [fold_left]. rewrite <- (countries_step_fst tl found m t).
  destruct (country_step tl (found, m) t) as [found1 m1]. apply IH.
Qed.

(** X1.  The two extraction functions agree: for every text and every
    iteration order of the registry set, [_extract_countries] returns the
    list of countries that [_extract_countries_with_counts] returns beside
    its counts (and both raise on [None]). *)
Theorem X1_extract_countries_agree (set_order : list string) (text : pyval) :
  _extract_countries set_order text
  = bind (_extract_countries_with_counts set_order text) (fun r => Ok (fst r)).
Proof.
  destruct text as [|s]; [reflexivity | ].
  unfold _extract_countries, _extract_countries_with_counts. cbn [py_lower bind].
  rewrite fold_countries_step_fst. reflexivity.
Qed.

(** ** What country extraction can return *)

Lemma extracted_name_is_canonical (set_order : list string) (tl c : string) :
  set_order ≡ₚ COUNTRY_KEYWORDS ->
  1 <= mention_sum (sorted_by_len_desc set_order) c tl ->
  c ∈ canonical_names.
Proof.
  intros Hperm H. apply mention_sum_pos_token in H as [t [Ht Hn]].
  unfold canonical_names. rewrite elem_of_remove_dups, list_elem_of_fmap.
  exists t. split; [symmetry; exact Hn | ].
  rewrite <- Hperm, <- (sorted_by_len_desc_perm set_order). exact Ht.
Qed.

(** X2.  Country extraction is closed over the canonical names of the
    registry, whatever the text: every name in the returned list, and every
    key of the returned counts, is one of them; and ['Ukraine'] is not one
    of them, so it is never reported. *)
Theorem X2_extracted_names_are_canonical (set_order : list string) (text : string)
        (found : list string) (mentions : gmap string nat) (c : string) :
  set_order ≡ₚ COUNTRY_KEYWORDS ->
  _extract_countries_with_counts set_order (PyStr text) = Ok (found, mentions) ->
  c ∈ found \/ is_Some (mentions !! c) ->
  c ∈ canonical_names /\ c <> "Ukraine".
Proof.
  intros Hperm Hres Hc.
  unfold _extract_countries_with_counts in Hres. cbn [py_lower bind] in Hres.
  pose proof (fold_country_step_spec (Str.lower text) (sorted_by_len_desc set_order) [] ∅)
    as H.
  injection Hres as Hres. rewrite Hres in H. cbn [fst snd] in H.
  destruct H as (_ & H2 & H3 & _).
  assert (Hpos : 1 <= mention_sum (sorted_by_len_desc set_order) c (Str.lower text)).
  { destruct Hc as [Hc|Hc].
    - apply H2 in Hc as [Hc|Hc]; [ | exact Hc]. apply elem_of_nil in Hc. contradiction.
    - apply H3 in Hc as [Hc|Hc]; [ | exact Hc].
      rewrite lookup_empty in Hc. destruct Hc as [x Hx]. discriminate. }
  pose proof (extracted_name_is_canonical _ _ _ Hperm Hpos) as Hcan.
  split; [exact Hcan | ].
  intros ->. revert Hcan. vm_compute. intros Hin.
  repeat (apply elem_of_cons in Hin as [Hin|Hin]; [discriminate | ]).
  apply elem_of_nil in Hin. contradiction.
Qed.

Lemma X2_extracted_names_are_canonical_witness :
  "United Kingdom" ∈ canonical_names /\ "United Kingdom" <> "Ukraine".
Proof.
  apply (X2_extracted_names_are_canonical COUNTRY_KEYWORDS "war in ukraine"
           ["United Kingdom"] {["United Kingdom" := 1]} "United Kingdom").
  - reflexivity.
  - vm_compute. reflexivity.
  - left. apply list_elem_of_In. simpl. tauto.
Defined.

(** ** Substrings *)

Lemma string_app_assoc (s1 s2 s3 : string) : (s1 ++ s2) ++ s3 = s1 ++ s2 ++ s3.
Proof.
  induction s1 as [|c s1 IH]; [reflexivity | ].
  change (String c ((s1 ++ s2) ++ s3) = String c (s1 ++ s2 ++ s3)).
  rewrite IH. reflexivity.
Qed.

(** [needle in hay] holds exactly when [hay] is [needle] with something
    before and after. *)
Lemma contains_iff_app (needle hay : string) :
  Str.contains needle hay = true <-> exists pre post, hay = pre ++ needle ++ post.
Proof.
  split.
  - induction hay as [|c hay IH]; simpl.
    + destruct (Str.startswith needle "") eqn:E; [ | discriminate].
      intros _. exists "", (drop_chars (String.length needle) "").
      exact (startswith_split _ _ E).
    + destruct (Str.startswith needle (String c hay)) eqn:E.
      * intros _. exists "", (drop_chars (String.length needle) (String c hay)).
        exact (startswith_split _ _ E).
      * intros H. destruct (IH H) as [pre [post ->]].
        exists (String c pre), post. reflexivity.
  - intros [pre [post ->]].
    apply contains_append_l, startswith_contains, startswith_append.
Qed.

Lemma contains_trans (a b c : string) :
  Str.contains a b = true -> Str.contains b c = true -> Str.contains a c = true.
Proof.
  rewrite !contains_iff_app. intros [p1 [q1 ->]] [p2 [q2 ->]].
  exists (p2 ++ p1), (q1 ++ q2). rewrite !string_app_assoc. reflexivity.
Qed.

Lemma contains_lower (a b : string) :
  Str.contains a b = true -> Str.contains (Str.lower a) (Str.lower b) = true.
Proof.
  rewrite !contains_iff_app. intros [p [q ->]].
  exists (Str.lower p), (Str.lower q). rewrite !lower_append. reflexivity.
Qed.

(** ** TaxonomyMatcher: what [_extract_industries] returns *)

Lemma any_keyword_occurs (keywords : list string) (s : string) :
  any_keyword keywords (PyStr s) = Ok (keyword_occurs keywords s).
Proof.
  induction keywords as [|k ks IH]; simpl; [reflexivity | ].
  destruct (Str.contains (Str.lower k) s); [reflexivity | exact IH].
Qed.

Lemma industries_loop_filter (items : list (string * list string)) (s : string) :
  forall found,
    industries_loop items (PyStr s) found
    = Ok (found ++ List.map fst
                     (List.filter (fun item => keyword_occurs (snd item) s) items))%list.
Proof.
  induction items as [|[industry keywords] rest IH]; intros found; simpl.
  - rewrite app_nil_r. reflexivity.
  - rewrite any_keyword_occurs. simpl. rewrite IH.
    destruct (keyword_occurs keywords s); simpl; [ | reflexivity].
    rewrite <- app_assoc. reflexivity.
Qed.

Lemma extract_industries_filter (s : string) :
  _extract_industries (PyStr s)
  = Ok (List.map fst
          (List.filter (fun item => keyword_occurs (snd item) s) INDUSTRY_KEYWORDS)).
Proof. unfold _extract_industries. rewrite industries_loop_filter. reflexivity. Qed.

Lemma map_filter_sublist {A B : Type} (f : A -> B) (p q : A -> bool) (l : list A) :
  (forall x, p x = true -> q x = true) ->
  sublist (List.map f (List.filter p l)) (List.map f (List.filter q l)).
Proof.
  intros Hpq. induction l as [|x l IH]; simpl; [constructor | ].
  destruct (p x) eqn:Hp.
  - rewrite (Hpq x Hp). simpl. apply sublist_skip. exact IH.
  - destruct (q x); simpl; [apply sublist_cons | ]; exact IH.
Qed.

Lemma map_filter_sublist_all {A B : Type} (f : A -> B) (p : A -> bool) (l : list A) :
  sublist (List.map f (List.filter p l)) (List.map f l).
Proof.
  induction l as [|x l IH]; simpl; [constructor | ].
  destruct (p x); simpl; [apply sublist_skip | apply sublist_cons]; exact IH.
Qed.

Lemma industry_labels_NoDup : NoDup industry_labels.
Proof. apply (bool_decide_unpack (NoDup industry_labels)). vm_compute. exact I. Qed.

Lemma elem_of_map_filter {A B : Type} (f : A -> B) (p : A -> bool) (l : list A) (y : B) :
  y ∈ List.map f (List.filter p l) <-> exists x, x ∈ l /\ p x = true /\ f x = y.
Proof.
  rewrite list_elem_of_In, in_map_iff. split.
  - intros [x [Hf Hin]]. apply filter_In in Hin as [Hin Hp].
    exists x. rewrite list_elem_of_In. tauto.
  - intros [x [Hin [Hp Hf]]]. exists x. split; [exact Hf | ].
    apply filter_In. rewrite <- list_elem_of_In. tauto.
Qed.

Lemma unique_key {A B : Type} (l : list (A * B)) (x : A) (y1 y2 : B) :
  NoDup (List.map fst l) -> (x, y1) ∈ l -> (x, y2) ∈ l -> y1 = y2.
Proof.
  induction l as [|[a b] l IH]; simpl; intros Hnd H1 H2.
  - apply elem_of_nil in H1. contradiction.
  - apply NoDup_cons in Hnd as [Hnotin Hnd].
    assert (Hkey : forall y, (x, y) ∈ l -> x ∈ List.map fst l).
    { intros y Hy. apply list_elem_of_In, in_map_iff. exists (x, y).
      split; [reflexivity | apply list_elem_of_In; exact Hy]. }
    apply elem_of_cons in H1 as [H1|H1]; apply elem_of_cons in H2 as [H2|H2].
    + congruence.
    + injection H1 as -> ->. destruct Hnotin. exact (Hkey _ H2).
    + injection H2 as -> ->. destruct Hnotin. exact (Hkey _ H1).
    + exact (IH Hnd H1 H2).
Qed.

(** X5.  For every text, [_extract_industries] returns the labels of the
    taxonomy, in the order of the taxonomy and each at most once, for which
    one of the industry's keywords (lower-cased) occurs in the text as a
    substring; no other label is returned. *)
Theorem X5_extract_industries_labels (text : string) :
  exists found,
    _extract_industries (PyStr text) = Ok found
    /\ NoDup found
    /\ sublist found industry_labels
    /\ forall label keywords,
         (label, keywords) ∈ INDUSTRY_KEYWORDS ->
         (label ∈ found <-> keyword_occurs keywords text = true).
Proof.
  eexists. split; [apply extract_industries_filter | ].
  assert (Hsub : sublist
            (List.map fst
               (List.filter (fun item => keyword_occurs (snd item) text) INDUSTRY_KEYWORDS))
            industry_labels) by apply map_filter_sublist_all.
  split; [exact (sublist_NoDup _ _ industry_labels_NoDup Hsub) | ].
  split; [exact Hsub | ].
  intros label keywords Hin. rewrite elem_of_map_filter. split.
  - intros [[label' keywords'] [Hin' [Hp Hf]]]. simpl in Hp, Hf. subst label'.
    assert (keywords' = keywords); [ | subst; exact Hp].
    exact (unique_key INDUSTRY_KEYWORDS label keywords' keywords
             industry_labels_NoDup Hin' Hin).
  - intros H. exists (label, keywords). auto.
Qed.

(** X6.  [_extract_industries] is monotone in the text: when [text] occurs
    in [text'] as a substring, every industry found in [text] is found in
    [text'], in the same relative order. *)
Theorem X6_extract_industries_monotone (text text' : string) :
  Str.contains text text' = true ->
  exists found found',
    _extract_industries (PyStr text) = Ok found
    /\ _extract_industries (PyStr text') = Ok found'
    /\ sublist found found'.
Proof.
  intros Hsub. do 2 eexists.
  split; [apply extract_industries_filter | ].
  split; [apply extract_industries_filter | ].
  apply map_filter_sublist. intros [label keywords]. unfold keyword_occurs. simpl.
  rewrite !existsb_exists. intros [k [Hk Hc]]. exists k. split; [exact Hk | ].
  exact (contains_trans _ _ _ Hc Hsub).
Qed.

Lemma X6_extract_industries_monotone_witness :
  exists found found',
    _extract_industries (PyStr "drone") = Ok found
    /\ _extract_industries (PyStr "a drone hit the bank") = Ok found'
    /\ sublist found found'.
Proof.
  apply (X6_extract_industries_monotone "drone" "a drone hit the bank").
  vm_compute. reflexivity.
Defined.

(** A keyword that occurs brings its first character into the text. *)
Lemma contains_first_char (p : ascii -> bool) (c : ascii) (k t : string) :
  p c = true -> Str.contains (String c k) t = true -> any_char p t = true.
Proof.
  intros Hp. induction t as [|c' t IH]; simpl; [discriminate | ].
  destruct (Ascii.eqb_spec c c') as [<-|Hne].
  - intros _. rewrite Hp. reflexivity.
  - intros H. rewrite (IH H). apply orb_true_r.
Qed.

Lemma keywords_start_lowercase :
  forallb (fun item =>
    forallb (fun keyword =>
      match Str.lower keyword with
      | String c _ => is_ascii_lower c
      | EmptyString => false
      end) (snd item)) INDUSTRY_KEYWORDS = true.
Proof. vm_compute. reflexivity. Qed.

(** X4.  [_extract_industries] does not lower-case its text: the keywords
    are lower-cased, the text is not, so a text without any lower-case
    ASCII letter (a headline in capitals, say) matches no industry. *)
Theorem X4_extract_industries_is_case_sensitive (text : string) :
  any_char is_ascii_lower text = false ->
  _extract_industries (PyStr text) = Ok [].
Proof.
  intros Hno. rewrite extract_industries_filter. f_equal.
  assert (H : forall item, In item INDUSTRY_KEYWORDS -> keyword_occurs (snd item) text = false).
  { intros item Hin.
    pose proof (proj1 (forallb_forall _ _) keywords_start_lowercase item Hin) as Hk.
    cbv beta in Hk. rewrite forallb_forall in Hk.
    unfold keyword_occurs. apply not_true_is_false. intros Hex.
    apply existsb_exists in Hex as [k [Hkin Hc]]. specialize (Hk k Hkin).
    destruct (Str.lower k) as [|c k']; [discriminate | ].
    rewrite (contains_first_char _ _ _ _ Hk Hc) in Hno. discriminate. }
  revert H. generalize INDUSTRY_KEYWORDS. intros l H.
  induction l as [|item l IH]; simpl; [reflexivity | ].
  rewrite (H item) by (left; reflexivity). apply IH. intros i Hi. apply H. right. exact Hi.
Qed.

Lemma X4_extract_industries_is_case_sensitive_witness :
  _extract_industries (PyStr "SCADA BREACH AT A POWER PLANT: 3 INJURED") = Ok [].
Proof.
  apply (X4_extract_industries_is_case_sensitive "SCADA BREACH AT A POWER PLANT: 3 INJURED").
  vm_compute. reflexivity.
Defined.

(** ** AttributionClassifier: what a verdict rests on *)

Lemma score_pos_keyword (keywords : list string) (text : string) :
  1 <= score keywords text ->
  exists k, k ∈ keywords /\ Str.contains k text = true.
Proof.
  unfold score.
  destruct (List.filter (fun keyword => Str.contains keyword text) keywords)
    as [|k ks] eqn:E; simpl; [lia | ].
  intros _. assert (Hin : In k (List.filter (fun keyword => Str.contains keyword text) keywords))
    by (rewrite E; left; reflexivity).
  apply filter_In in Hin as [Hin Hc]. exists k. rewrite list_elem_of_In. tauto.
Qed.

Lemma score_zero (keywords : list string) (text : string) :
  (forall k, k ∈ keywords -> Str.contains k text = false) -> score keywords text = 0.
Proof.
  intros H. destruct (score keywords text) as [|n] eqn:E; [reflexivity | ].
  destruct (score_pos_keyword keywords text) as [k [Hk Hc]]; [lia | ].
  rewrite (H k Hk) in Hc. discriminate.
Qed.

Lemma score_monotone (keywords : list string) (text text' : string) :
  Str.contains text text' = true -> score keywords text <= score keywords text'.
Proof.
  intros Hsub. unfold score. induction keywords as [|k ks IH]; simpl; [lia | ].
  destruct (Str.contains k text) eqn:Hk.
  - rewrite (contains_trans _ _ _ Hk Hsub). simpl. lia.
  - destruct (Str.contains k text'); simpl; lia.
Qed.

Lemma direct_score_eq (t : string) : direct_score t = score SECURITY_SERVICES_direct t.
Proof. unfold direct_score. reflexivity. Qed.

Lemma proxy_score_eq (t : string) : proxy_score t = score SECURITY_SERVICES_proxy t.
Proof. unfold proxy_score. reflexivity. Qed.

Lemma verdict_cases (d p : nat) (verdict : string) :
  (if Nat.ltb p d then Ok "direct" else if Nat.ltb d p then Ok "proxy" else Ok "unknown")
  = Ok verdict ->
  (verdict = "direct" -> 1 <= d) /\ (verdict = "proxy" -> 1 <= p)
  /\ (d = 0 -> p = 0 -> verdict = "unknown").
Proof.
  destruct (Nat.ltb_spec p d) as [Hd|Hd]; [ | destruct (Nat.ltb_spec d p) as [Hp|Hp]];
    intros H; injection H as <-.
  - split; [intros _; lia | split; [discriminate | intros; lia]].
  - split; [discriminate | split; [intros _; lia | intros; lia]].
  - split; [discriminate | split; [discriminate | reflexivity]].
Qed.

(** X7.  A verdict is never given without a term to rest on: ['direct']
    is returned only when some state-actor keyword occurs in the lower-cased
    text, ['proxy'] only when some proxy keyword occurs, and a text in which
    no keyword of either list occurs gets ['unknown']. *)
Theorem X7_verdict_rests_on_a_keyword (text verdict : string) :
  _determine_attack_method (PyStr text) = Ok verdict ->
  (verdict = "direct" ->
   exists k, k ∈ SECURITY_SERVICES_direct /\ Str.contains k (Str.lower text) = true)
  /\ (verdict = "proxy" ->
      exists k, k ∈ SECURITY_SERVICES_proxy /\ Str.contains k (Str.lower text) = true)
  /\ ((forall k, k ∈ (SECURITY_SERVICES_direct ++ SECURITY_SERVICES_proxy)%list ->
                 Str.contains k (Str.lower text) = false) ->
      verdict = "unknown").
Proof.
  intros H.
  destruct (verdict_cases (direct_score (Str.lower text)) (proxy_score (Str.lower text))
              verdict H) as (Hd & Hp & Hu).
  split; [ | split].
  - intros E. apply score_pos_keyword. specialize (Hd E).
    rewrite direct_score_eq in Hd. exact Hd.
  - intros E. apply score_pos_keyword. specialize (Hp E).
    rewrite proxy_score_eq in Hp. exact Hp.
  - intros Hnone. apply Hu.
    + rewrite direct_score_eq.
      apply score_zero. intros k Hk. apply Hnone. apply elem_of_app. left. exact Hk.
    + rewrite proxy_score_eq.
      apply score_zero. intros k Hk. apply Hnone. apply elem_of_app. right. exact Hk.
Qed.

Lemma X7_verdict_rests_on_a_keyword_witness :
  ("direct" = "direct" ->
   exists k, k ∈ SECURITY_SERVICES_direct
             /\ Str.contains k (Str.lower "The GRU is suspected") = true)
  /\ ("direct" = "proxy" ->
      exists k, k ∈ SECURITY_SERVICES_proxy
                /\ Str.contains k (Str.lower "The GRU is suspected") = true)
  /\ ((forall k, k ∈ (SECURITY_SERVICES_direct ++ SECURITY_SERVICES_proxy)%list ->
                 Str.contains k (Str.lower "The GRU is suspected") = false) ->
      "direct" = "unknown").
Proof.
  apply (X7_verdict_rests_on_a_keyword "The GRU is suspected" "direct").
  vm_compute. reflexivity.
Defined.

(** X8.  Both scores are monotone in the text: when [text] occurs in
    [text'] as a substring, neither the direct score nor the proxy score of
    [text'] is below that of [text]. *)
Theorem X8_scores_monotone (text text' : string) :
  Str.contains text text' = true ->
  direct_score (Str.lower text) <= direct_score (Str.lower text')
  /\ proxy_score (Str.lower text) <= proxy_score (Str.lower text').
Proof.
  intros H. apply contains_lower in H.
  rewrite (direct_score_eq (Str.lower text)), (direct_score_eq (Str.lower text')),
    (proxy_score_eq (Str.lower text)), (proxy_score_eq (Str.lower text')).
  split; apply score_monotone; exact H.
Qed.

Lemma X8_scores_monotone_witness :
  direct_score (Str.lower "FSB") <= direct_score (Str.lower "the FSB and a gang")
  /\ proxy_score (Str.lower "FSB") <= proxy_score (Str.lower "the FSB and a gang").
Proof.
  apply (X8_scores_monotone "FSB" "the FSB and a gang"). vm_compute. reflexivity.
Defined.

(** ** [search_google]: the number of pages *)

(** X9.  The number of result pages requested is at most 30; for a
    non-negative [max_results] it is non-negative, ten results per page
    cover [max_results] up to the cap of 300, and no page is requested
    beyond the one that holds the last wanted result. *)
Theorem X9_pages_needed_bounds (max_results : Z) :
  (0 <= max_results)%Z ->
  (0 <= pages_needed max_results <= 30)%Z
  /\ (Z.min max_results 300 <= 10 * pages_needed max_results)%Z
  /\ (10 * pages_needed max_results < max_results + 10)%Z.
Proof.
  intros H. unfold pages_needed.
  pose proof (Z.div_mod (max_results + 10 - 1) 10 ltac:(lia)) as Hdm.
  pose proof (Z.mod_pos_bound (max_results + 10 - 1) 10 ltac:(lia)) as Hmod.
  lia.
Qed.

Lemma X9_pages_needed_bounds_witness :
  (0 <= pages_needed 1000 <= 30)%Z
  /\ (Z.min 1000 300 <= 10 * pages_needed 1000)%Z
  /\ (10 * pages_needed 1000 < 1000 + 10)%Z.
Proof. apply (X9_pages_needed_bounds 1000). lia. Defined.

(** ** Lower-casing *)

Lemma chr_lower_idem (c : ascii) : Chr.lower (Chr.lower c) = Chr.lower c.
Proof. destruct c as [[] [] [] [] [] [] [] []]; reflexivity. Qed.




Lemma lower_idem (s : string) : Str.lower (Str.lower s) = Str.lower s.
Proof.
  unfold Str.lower. induction s as [|c s IH]; simpl; [reflexivity | ].
  rewrite chr_lower_idem, IH. reflexivity.
Qed.












(** The text handed to the classifiers is lower-case, and lower-casing the
    fields of the article beforehand does not change it. *)
Lemma analysis_text_lower (a : Article.t) : Str.lower (analysis_text a) = analysis_text a.
Proof.
  unfold analysis_text. destruct (Article.full_content a) as [content|];
    [destruct (truthy content) | ]; apply lower_idem.
Qed.


(** ** [analyze_articles] *)

(** The analysis of an article never takes the exception path: all four
    result fields are assigned from the one analysis text. *)
Lemma analyze_article_fields (set_order : list string) (a : Article.t) :
  exists found mentions verdict,
    _extract_countries_with_counts set_order (PyStr (analysis_text a))
    = Ok (found, mentions)
    /\ _determine_attack_method (PyStr (analysis_text a)) = Ok verdict
    /\ analyze_article set_order a
       = Article.Make (Article.title a) (Article.url a) (Article.snippet a)
           (Article.date a) (Article.full_content a)
           (List.map fst
              (List.filter (fun item => keyword_occurs (snd item) (analysis_text a))
                           INDUSTRY_KEYWORDS))
           found mentions (Some verdict).
Proof.
  unfold analyze_article. rewrite extract_industries_filter.
  destruct (_extract_countries_with_counts set_order (PyStr (analysis_text a)))
    as [[found mentions]|e] eqn:Ec; [ | discriminate Ec].
  destruct (_determine_attack_method (PyStr (analysis_text a))) as [verdict|e] eqn:Em.
  - exists found, mentions, verdict. auto.
  - unfold _determine_attack_method in Em. cbn [py_lower bind] in Em.
    repeat match type of Em with context [Nat.ltb ?x ?y] => destruct (Nat.ltb x y) end;
      discriminate Em.
Qed.


Lemma is_unknown_method_verdict (text verdict : string) :
  _determine_attack_method (PyStr text) = Ok verdict ->
  is_unknown_method (Some verdict)
  = Nat.eqb (direct_score (Str.lower text)) (proxy_score (Str.lower text)).
Proof.
  unfold _determine_attack_method. cbn [py_lower bind]. intros H.
  destruct (Nat.ltb_spec (proxy_score (Str.lower text)) (direct_score (Str.lower text))).
  - injection H as <-. change (is_unknown_method (Some "direct")) with false.
    symmetry. apply Nat.eqb_neq. lia.
  - destruct (Nat.ltb_spec (direct_score (Str.lower text)) (proxy_score (Str.lower text)));
      injection H as <-.
    + change (is_unknown_method (Some "proxy")) with false.
      symmetry. apply Nat.eqb_neq. lia.
    + change (is_unknown_method (Some "unknown")) with true.
      symmetry. apply Nat.eqb_eq. lia.
Qed.

(** X10.  After the analysis, [export_unknown_articles] lists exactly the
    URLs of the articles whose analysis text scores a tie between the two
    lexicons, in the order of the articles. *)
Theorem X10_unknown_articles_are_ties (set_order : list string)
        (articles : list Article.t) :
  unknown_articles (analyze_articles set_order articles)
  = List.map Article.url
      (List.filter
         (fun a => Nat.eqb (direct_score (analysis_text a)) (proxy_score (analysis_text a)))
         articles).
Proof.
  unfold unknown_articles, analyze_articles.
  induction articles as [|a articles IH]; [reflexivity | ].
  cbn [List.map List.filter].
  destruct (analyze_article_fields set_order a) as (f & m & v & _ & Hm & Ha).
  rewrite Ha at 1. cbn [Article.attack_method].
  rewrite (is_unknown_method_verdict _ _ Hm), analysis_text_lower.
  destruct (Nat.eqb _ _); cbn [List.map]; rewrite IH; [ | reflexivity].
  rewrite Ha. reflexivity.
Qed.

(** ** The matcher is sound for the relation [den] *)

Lemma rep_sound {R : Type} (ic : bool) (k : cclass) (lo : nat) (hi : option nat)
      (kont : mstate -> option R) (x : R) (rest : string) :
  forall (n : nat) (prev : option ascii) (pos : nat) (caps : list (nat * string)),
    within hi n ->
    rep ic k lo hi n prev rest pos caps kont = Some x ->
    exists cs rest',
      rest = cs ++ rest'
      /\ all_chars (cmatch ic k) cs = true
      /\ lo <= n + String.length cs /\ within hi (n + String.length cs)
      /\ kont (MState (last_char_from prev cs) rest' (pos + String.length cs) caps) = Some x.
Proof.
  assert (Hhere : forall n prev rest0 pos caps,
             within hi n ->
             (if Nat.leb lo n then kont (MState prev rest0 pos caps) else None) = Some x ->
             exists cs rest',
               rest0 = cs ++ rest'
               /\ all_chars (cmatch ic k) cs = true
               /\ lo <= n + String.length cs /\ within hi (n + String.length cs)
               /\ kont (MState (last_char_from prev cs) rest' (pos + String.length cs) caps)
                  = Some x).
  { intros n prev rest0 pos caps Hw H.
    destruct (Nat.leb_spec lo n) as [Hlo|Hlo]; [ | discriminate].
    exists "", rest0. simpl. rewrite !Nat.add_0_r. auto. }
  induction rest as [|c rest IH]; intros n prev pos caps Hw H.
  - simpl in H. apply Hhere; assumption.
  - cbn [rep] in H.
    destruct (cmatch ic k c && below n hi) eqn:Hc; [ | apply Hhere; assumption].
    apply andb_true_iff in Hc as [Hc Hb].
    destruct (rep ic k lo hi (S n) (Some c) rest (S pos) caps kont) as [y|] eqn:E;
      [ | apply Hhere; assumption].
    injection H as ->.
    assert (Hw' : within hi (S n)).
    { destruct hi as [h|]; simpl in *; [apply Nat.ltb_lt in Hb; lia | exact I]. }
    destruct (IH (S n) (Some c) (S pos) caps Hw' E) as (cs & rest' & -> & Hall & Hlo & Hhi & Hk).
    exists (String c cs), rest'. simpl. rewrite Hc, Hall.
    rewrite <- !Nat.add_succ_comm. auto.
Qed.

Lemma rx_sound {R : Type} (ic : bool) (r : regex) :
  forall (st : mstate) (kont : mstate -> option R) (x : R),
    rx ic r st kont = Some x ->
    exists st', den ic r st st' /\ kont st' = Some x.
Proof.
  induction r as [ | k | r1 IH1 r2 IH2 | r1 IH1 r2 IH2 | k lo hi | i r1 IH1 | ];
    intros st kont x H; cbn [rx] in H.
  - exists st. split; [reflexivity | exact H].
  - destruct (st_rest st) as [|c t] eqn:E; [discriminate | ].
    destruct (cmatch ic k c) eqn:Hc; [ | discriminate].
    eexists. split; [ | exact H]. cbn [den]. exists c, t. auto.
  - apply IH1 in H as [mid [H1 H]]. apply IH2 in H as [st' [H2 H]].
    exists st'. split; [ | exact H]. cbn [den]. exists mid. auto.
  - destruct (rx ic r1 st kont) as [y|] eqn:E.
    + injection H as ->. apply IH1 in E as [st' [H1 H]].
      exists st'. split; [left; exact H1 | exact H].
    + apply IH2 in H as [st' [H2 H]].
      exists st'. split; [right; exact H2 | exact H].
  - apply rep_sound in H as (cs & rest' & Hr & Hall & Hlo & Hhi & Hk);
      [ | destruct hi; simpl; [lia | exact I]].
    eexists. split; [ | exact Hk]. cbn [den]. exists cs. simpl in *.
    repeat split; try assumption; reflexivity.
  - apply IH1 in H as [st1 [H1 H]].
    eexists. split; [ | exact H]. cbn [den]. exists st1. auto.
  - destruct (at_boundary (st_prev st) (st_rest st)) eqn:E; [ | discriminate].
    exists st. split; [ | exact H]. cbn [den]. auto.
Qed.

(** What lies between the two positions of [den]. *)
Lemma den_consumes (ic : bool) (r : regex) :
  forall st st', den ic r st st' ->
    exists cs, st_rest st = cs ++ st_rest st'
               /\ st_pos st' = st_pos st + String.length cs.
Proof.
  induction r as [ | k | r1 IH1 r2 IH2 | r1 IH1 r2 IH2 | k lo hi | i r1 IH1 | ];
    intros st st' H; cbn [den] in H.
  - subst. exists "". simpl. rewrite Nat.add_0_r. auto.
  - destruct H as (c & t & Hr & _ & ->). exists (String c ""). simpl.
    rewrite Hr, Nat.add_1_r. auto.
  - destruct H as (mid & H1 & H2).
    apply IH1 in H1 as (cs1 & Hr1 & Hp1). apply IH2 in H2 as (cs2 & Hr2 & Hp2).
    exists (cs1 ++ cs2). rewrite Hr1, Hr2, Hp2, Hp1, string_app_assoc.
    split; [reflexivity | ].
    assert (Hl : String.length (cs1 ++ cs2) = String.length cs1 + String.length cs2).
    { clear. induction cs1 as [|c cs1 IH]; [reflexivity | ].
      change (S (String.length (cs1 ++ cs2)) = S (String.length cs1) + String.length cs2).
      rewrite IH. reflexivity. }
    rewrite Hl. lia.
  - destruct H as [H|H]; [apply IH1 | apply IH2]; exact H.
  - destruct H as (cs & Hr & _ & _ & _ & _ & Hp & _). exists cs. auto.
  - destruct H as (st1 & H1 & ->). simpl. apply IH1. exact H1.
  - destruct H as [_ ->]. exists "". simpl. rewrite Nat.add_0_r. auto.
Qed.

(** ** Characters that every match must contain *)

Lemma all_ascii_complete (c : ascii) : In c all_ascii.
Proof.
  unfold all_ascii. apply in_map_iff.
  exists (N.to_nat (N_of_ascii c)). split.
  - rewrite N2Nat.id. apply ascii_N_embedding.
  - apply in_seq. pose proof (N_ascii_bounded c). lia.
Qed.

Lemma class_within_sound (ic : bool) (k : cclass) (p : ascii -> bool) (c : ascii) :
  class_within ic k p = true -> cmatch ic k c = true -> p c = true.
Proof.
  unfold class_within. rewrite forallb_forall. intros H Hc.
  specialize (H c (all_ascii_complete c)). rewrite Hc in H. exact H.
Qed.

Lemma any_char_app (p : ascii -> bool) (a b : string) :
  any_char p (a ++ b) = any_char p a || any_char p b.
Proof.
  induction a as [|c a IH]; [reflexivity | ].
  change (any_char p (String c (a ++ b)) = any_char p (String c a) || any_char p b).
  simpl. rewrite IH, orb_assoc. reflexivity.
Qed.

Lemma any_char_contains (p : ascii -> bool) (a b : string) :
  Str.contains a b = true -> any_char p a = true -> any_char p b = true.
Proof.
  rewrite contains_iff_app. intros [pre [post ->]] H.
  rewrite !any_char_app, H, orb_true_r. reflexivity.
Qed.

Lemma needs_sound (p : ascii -> bool) (ic : bool) (r : regex) :
  needs p ic r = true ->
  forall st st', den ic r st st' -> any_char p (st_rest st) = true.
Proof.
  induction r as [ | k | r1 IH1 r2 IH2 | r1 IH1 r2 IH2 | k lo hi | i r1 IH1 | ];
    cbn [needs]; intros Hn st st' H; cbn [den] in H; try discriminate.
  - destruct H as (c & t & -> & Hc & _). simpl.
    rewrite (class_within_sound _ _ _ _ Hn Hc). reflexivity.
  - destruct H as (mid & H1 & H2). apply orb_true_iff in Hn as [Hn|Hn].
    + exact (IH1 Hn _ _ H1).
    + apply den_consumes in H1 as (cs & -> & _).
      rewrite any_char_app, (IH2 Hn _ _ H2), orb_true_r. reflexivity.
  - apply andb_true_iff in Hn as [Hn1 Hn2].
    destruct H as [H|H]; [exact (IH1 Hn1 _ _ H) | exact (IH2 Hn2 _ _ H)].
  - apply andb_true_iff in Hn as [Hlo Hn]. apply Nat.leb_le in Hlo.
    destruct H as (cs & -> & Hall & Hlen & _).
    destruct cs as [|c cs]; [simpl in Hlen; lia | ].
    simpl in Hall. apply andb_true_iff in Hall as [Hc _].
    change (any_char p (String c (cs ++ st_rest st')) = true). simpl.
    rewrite (class_within_sound _ _ _ _ Hn Hc). reflexivity.
  - destruct H as (st1 & H1 & _). exact (IH1 Hn _ _ H1).
Qed.

Lemma match_here_needs (p : ascii -> bool) (ic : bool) (r : regex)
      (prev : option ascii) (rest : string) (pos : nat) :
  needs p ic r = true -> any_char p rest = false -> match_here ic r prev rest pos = None.
Proof.
  intros Hn Hp. unfold match_here.
  destruct (rx ic r (MState prev rest pos []) Some) as [st|] eqn:E; [ | reflexivity].
  apply rx_sound in E as (st' & Hd & _).
  apply (needs_sound _ _ _ Hn) in Hd. simpl in Hd. congruence.
Qed.

Lemma search_from_needs (p : ascii -> bool) (ic : bool) (r : regex) (rest : string) :
  needs p ic r = true -> any_char p rest = false ->
  forall prev pos, search_from ic r prev rest pos = None.
Proof.
  intros Hn. induction rest as [|c rest IH]; intros Hp prev pos; cbn [search_from];
    rewrite (match_here_needs p ic r _ _ _ Hn Hp); [reflexivity | ].
  simpl in Hp. apply orb_false_iff in Hp as [_ Hp]. apply IH. exact Hp.
Qed.

Lemma search_needs (p : ascii -> bool) (ic : bool) (r : regex) (s : string) :
  needs p ic r = true -> any_char p s = false -> search ic r s = None.
Proof. intros Hn Hp. apply search_from_needs with (p := p); assumption. Qed.

Lemma finditer_needs (p : ascii -> bool) (ic : bool) (r : regex) (s : string) :
  needs p ic r = true -> any_char p s = false -> finditer ic r s = [].
Proof.
  intros Hn Hp. unfold finditer. apply search_from_scan.
  apply search_from_needs with (p := p); assumption.
Qed.

(** ** Substrings produced by the string methods *)

Lemma lstrip_suffix (s : string) : exists pre, s = pre ++ Str.lstrip s.
Proof.
  induction s as [|c s [pre IH]]; [exists ""; reflexivity | ].
  simpl. destruct (Chr.is_space c).
  - exists (String c pre). change (String c s = String c (pre ++ Str.lstrip s)).
    rewrite <- IH. reflexivity.
  - exists "". reflexivity.
Qed.

Lemma rstrip_prefix (s : string) : exists post, s = Str.rstrip s ++ post.
Proof.
  induction s as [|c s [post IH]]; [exists ""; reflexivity | ].
  simpl. destruct (Str.rstrip s) as [|c' r] eqn:E.
  - destruct (Chr.is_space c).
    + exists (String c s). reflexivity.
    + exists s. reflexivity.
  - exists post. change (String c s = String c (String c' r ++ post)).
    rewrite <- IH. reflexivity.
Qed.

Lemma strip_contained (s : string) : Str.contains (Str.strip s) s = true.
Proof.
  apply contains_iff_app. unfold Str.strip.
  destruct (lstrip_suffix s) as [pre Hpre].
  destruct (rstrip_prefix (Str.lstrip s)) as [post Hpost].
  exists pre, post. rewrite <- Hpost. exact Hpre.
Qed.

Lemma take_prefix (n : nat) (s : string) : exists post, s = Str.take n s ++ post.
Proof.
  revert s. induction n as [|n IH]; intros s; [exists s; reflexivity | ].
  destruct s as [|c s]; [exists ""; reflexivity | ].
  destruct (IH s) as [post Hpost]. exists post. simpl.
  change (String c s = String c (Str.take n s ++ post)). rewrite <- Hpost. reflexivity.
Qed.

Lemma any_char_strip (p : ascii -> bool) (s : string) :
  any_char p s = false -> any_char p (Str.strip s) = false.
Proof.
  intros H. destruct (any_char p (Str.strip s)) eqn:E; [ | reflexivity].
  rewrite (any_char_contains p _ _ (strip_contained s) E) in H. discriminate.
Qed.

Lemma any_char_take (p : ascii -> bool) (n : nat) (s : string) :
  any_char p s = false -> any_char p (Str.take n s) = false.
Proof.
  intros H. destruct (take_prefix n s) as [post Hpost]. rewrite Hpost in H.
  rewrite any_char_app in H. apply orb_false_iff in H as [H _]. exact H.
Qed.

Lemma any_char_split_lines (p : ascii -> bool) (s : string) :
  any_char p s = false -> forall line, In line (Str.split_lines s) -> any_char p line = false.
Proof.
  induction s as [|c s IH]; intros H line Hin.
  - destruct Hin as [<- | []]. reflexivity.
  - simpl in H. apply orb_false_iff in H as [Hc H]. specialize (IH H).
    simpl in Hin. destruct (Ascii.eqb c "010").
    + destruct Hin as [<- | Hin]; [reflexivity | exact (IH _ Hin)].
    + destruct (Str.split_lines s) as [|l ls].
      * destruct Hin as [<- | []]. simpl. rewrite Hc. reflexivity.
      * destruct Hin as [<- | Hin].
        -- simpl. rewrite Hc. apply IH. left. reflexivity.
        -- apply IH. right. exact Hin.
Qed.

Lemma first_some_none {A B : Type} (f : A -> option B) (l : list A) :
  (forall a, In a l -> f a = None) -> first_some f l = None.
Proof.
  induction l as [|a l IH]; intros H; [reflexivity | ].
  simpl. rewrite (H a (or_introl eq_refl)). apply IH. intros b Hb. apply H. right. exact Hb.
Qed.

Lemma any_char_lower_digit (s : string) :
  any_char Chr.is_digit (Str.lower s) = any_char Chr.is_digit s.
Proof.
  induction s as [|c s IH]; [reflexivity | ].
  change (Str.lower (String c s)) with (String (Chr.lower c) (Str.lower s)).
  simpl. rewrite IH. f_equal.
  destruct c as [[] [] [] [] [] [] [] []]; reflexivity.
Qed.

(** ** Texts without a digit carry no date *)

Lemma patterns_need_digit :
  forallb (fun pf => needs Chr.is_digit true (fst pf)) patterns = true.
Proof. vm_compute. reflexivity. Qed.

Lemma date_patterns_need_digit :
  forallb (needs Chr.is_digit true) date_patterns = true.
Proof. vm_compute. reflexivity. Qed.

Lemma candidate_pattern_needs_digit : needs Chr.is_digit true candidate_pattern = true.
Proof. vm_compute. reflexivity. Qed.

Lemma ago_patterns_need_digit (unit : string) :
  needs Chr.is_digit false (ago_pattern unit) = true.
Proof. unfold ago_pattern. cbn [needs]. vm_compute. reflexivity. Qed.

Lemma patterns_loop_needs (ps : list (regex * (match_obj -> option string)))
      (text : string) :
  forallb (fun pf => needs Chr.is_digit true (fst pf)) ps = true ->
  any_char Chr.is_digit text = false ->
  patterns_loop ps text = None.
Proof.
  intros Hps Hp. induction ps as [|[r f] ps IH]; [reflexivity | ].
  simpl in Hps. apply andb_true_iff in Hps as [Hr Hps].
  cbn [patterns_loop]. rewrite (search_needs _ _ _ _ Hr Hp). apply IH. exact Hps.
Qed.

Lemma parse_date_no_digit (text : string) :
  any_char Chr.is_digit text = false -> _parse_date None text = None.
Proof.
  intros H. unfold _parse_date. destruct (negb (truthy text)); [reflexivity | ].
  apply patterns_loop_needs; [exact patterns_need_digit | ].
  apply any_char_strip. exact H.
Qed.

Lemma try_line_no_digit (line : string) :
  any_char Chr.is_digit line = false -> try_line None line = None.
Proof.
  intros H. unfold try_line. apply first_some_none. intros pattern Hin.
  pose proof date_patterns_need_digit as Hall. rewrite forallb_forall in Hall.
  rewrite (search_needs _ _ _ _ (Hall _ Hin) H). reflexivity.
Qed.

Lemma extract_date_no_digit (text : string) :
  any_char Chr.is_digit text = false -> _extract_date_from_text None text = None.
Proof.
  intros H. unfold _extract_date_from_text.
  rewrite first_some_none.
  - rewrite (finditer_needs Chr.is_digit);
      [reflexivity | exact candidate_pattern_needs_digit | apply any_char_take; exact H].
  - intros line Hin. apply try_line_no_digit.
    apply (any_char_split_lines _ _ H).
    apply list_elem_of_In. apply list_elem_of_In in Hin.
    exact (elem_of_sublist _ _ _ Hin (sublist_take _ _)).
Qed.

(** X11.  A text without a decimal digit carries no date: with the fuzzy
    parser absent, neither [_parse_date] nor [_extract_date_from_text] finds
    one, whatever month names or labels the text holds. *)
Theorem X11_no_digit_no_date (text : string) :
  any_char Chr.is_digit text = false ->
  _parse_date None text = None /\ _extract_date_from_text None text = None.
Proof.
  intros H. split; [apply parse_date_no_digit | apply extract_date_no_digit]; exact H.
Qed.

Lemma X11_no_digit_no_date_witness :
  _parse_date None "Published on March the fifth" = None
  /\ _extract_date_from_text None "Published on March the fifth" = None.
Proof.
  apply (X11_no_digit_no_date "Published on March the fifth").
  vm_compute. reflexivity.
Defined.

Lemma relative_no_digit (now : Date.date) (unit : string) (per_unit : Z) (text : string) :
  any_char Chr.is_digit text = false -> relative now unit per_unit text = None.
Proof.
  intros H. unfold relative.
  rewrite (search_needs _ _ _ _ (ago_patterns_need_digit unit) H). reflexivity.
Qed.

Lemma contains_lower_strip (k text : string) :
  Str.contains k (Str.lower (Str.strip text)) = true ->
  Str.contains k (Str.lower text) = true.
Proof.
  intros H. apply (contains_trans _ _ _ H).
  apply contains_lower. apply strip_contained.
Qed.

(** X12.  [_parse_google_date] on a text without a decimal digit (fuzzy
    parser absent): no relative phrase and no pattern can match, so the
    result is nothing unless the text mentions ['yesterday'] or ['today'] in
    some letter case, and it is the date of [now] when the text, once
    stripped and lower-cased, mentions ['today'] but not ['yesterday']. *)
Theorem X12_google_date_without_digit (now : Date.date) (text : string) :
  any_char Chr.is_digit text = false ->
  (Str.contains "yesterday" (Str.lower text) = false ->
   Str.contains "today" (Str.lower text) = false ->
   _parse_google_date None now text = None)
  /\ (Str.contains "yesterday" (Str.lower text) = false ->
      Str.contains "today" (Str.lower (Str.strip text)) = true ->
      _parse_google_date None now text = Some (Date.strftime now)).
Proof.
  intros H.
  assert (Hl : any_char Chr.is_digit (Str.lower (Str.strip text)) = false).
  { rewrite any_char_lower_digit. apply any_char_strip. exact H. }
  assert (Hno : forall k, Str.contains k (Str.lower text) = false ->
                          Str.contains k (Str.lower (Str.strip text)) = false).
  { intros k Hk. destruct (Str.contains k (Str.lower (Str.strip text))) eqn:E;
      [ | reflexivity].
    rewrite (contains_lower_strip _ _ E) in Hk. discriminate. }
  unfold _parse_google_date.
  rewrite !(relative_no_digit _ _ _ _ Hl), (parse_date_no_digit _ Hl).
  cbn [or_else]. split.
  - intros Hy Ht. rewrite (Hno _ Hy), (Hno _ Ht).
    destruct (negb (truthy text)); reflexivity.
  - intros Hy Ht. rewrite (Hno _ Hy), Ht.
    destruct text as [|c text]; [discriminate Ht | reflexivity].
Qed.

Lemma X12_google_date_without_digit_witness :
  (Str.contains "yesterday" (Str.lower " Today ") = false ->
   Str.contains "today" (Str.lower " Today ") = false ->
   _parse_google_date None (Date.Date 2024 3 5) " Today " = None)
  /\ (Str.contains "yesterday" (Str.lower " Today ") = false ->
      Str.contains "today" (Str.lower (Str.strip " Today ")) = true ->
      _parse_google_date None (Date.Date 2024 3 5) " Today " = Some "2024-03-05").
Proof.
  apply (X12_google_date_without_digit (Date.Date 2024 3 5) " Today ").
  vm_compute. reflexivity.
Defined.

(** ** The groups recorded by a match *)

Lemma take_app_exact (cs t : string) : Str.take (String.length cs) (cs ++ t) = cs.
Proof.
  induction cs as [|c cs IH]; [destruct t; reflexivity | ].
  change (String c (Str.take (String.length cs) (cs ++ t)) = String c cs).
  rewrite IH. reflexivity.
Qed.

Lemma den_captures (ic : bool) (r : regex) :
  forall st st', den ic r st st' ->
    exists new, st_caps st' = (new ++ st_caps st)%list /\ captures ic r new.
Proof.
  induction r as [ | k | r1 IH1 r2 IH2 | r1 IH1 r2 IH2 | k lo hi | i r1 IH1 | ];
    intros st st' H; cbn [den] in H; cbn [captures].
  - subst. exists []. auto.
  - destruct H as (c & t & _ & _ & ->). exists []. auto.
  - destruct H as (mid & H1 & H2).
    apply IH1 in H1 as (n1 & E1 & C1). apply IH2 in H2 as (n2 & E2 & C2).
    exists (n2 ++ n1)%list. rewrite E2, E1, app_assoc. split; [reflexivity | ].
    exists n1, n2. auto.
  - destruct H as [H|H]; [apply IH1 in H | apply IH2 in H];
      destruct H as (new & E & C); exists new; auto.
  - destruct H as (cs & _ & _ & _ & _ & _ & _ & E). exists []. auto.
  - destruct H as (st1 & H1 & ->).
    assert (Hb : body_ok ic r1 (Str.take (st_pos st1 - st_pos st) (st_rest st))).
    { destruct r1; try exact I. cbn [den] in H1.
      destruct H1 as (cs & -> & Hall & Hlo & Hhi & _ & -> & _).
      replace (st_pos st + String.length cs - st_pos st) with (String.length cs) by lia.
      rewrite take_app_exact. cbn [body_ok]. auto. }
    apply IH1 in H1 as (n1 & E1 & C1).
    exists ((i, Str.take (st_pos st1 - st_pos st) (st_rest st)) :: n1).
    cbn [st_caps]. rewrite E1. split; [reflexivity | ].
    eexists _, n1. auto.
  - destruct H as [_ ->]. exists []. auto.
Qed.

Lemma match_here_captures (ic : bool) (r : regex) (prev : option ascii) (rest : string)
      (pos : nat) (m : match_obj) :
  match_here ic r prev rest pos = Some m -> captures ic r (m_caps m).
Proof.
  unfold match_here.
  destruct (rx ic r (MState prev rest pos []) Some) as [st|] eqn:E; [ | discriminate].
  intros H. injection H as <-. cbn [m_caps].
  apply rx_sound in E as (st' & Hd & Hk). injection Hk as ->.
  apply den_captures in Hd as (new & E & C). cbn [st_caps] in E.
  rewrite app_nil_r in E. rewrite E. exact C.
Qed.

Lemma search_from_captures (ic : bool) (r : regex) (rest : string) (m : match_obj) :
  forall prev pos, search_from ic r prev rest pos = Some m -> captures ic r (m_caps m).
Proof.
  induction rest as [|c rest IH]; intros prev pos; cbn [search_from];
    destruct (match_here ic r prev _ pos) as [m'|] eqn:E.
  - intros H. injection H as <-. exact (match_here_captures _ _ _ _ _ _ E).
  - discriminate.
  - intros H. injection H as <-. exact (match_here_captures _ _ _ _ _ _ E).
  - apply IH.
Qed.

Lemma search_captures (ic : bool) (r : regex) (s : string) (m : match_obj) :
  search ic r s = Some m -> captures ic r (m_caps m).
Proof. apply search_from_captures. Qed.

(** ** The shape of what the formatters print *)

Lemma digit_not_sign (c : ascii) :
  Chr.is_digit c = true -> Ascii.eqb c "+" || Ascii.eqb c "-" = false.
Proof. destruct c as [[] [] [] [] [] [] [] []]; intros H; try reflexivity; discriminate H. Qed.

Lemma digit_not_space (c : ascii) : Chr.is_digit c = true -> Chr.is_space c = false.
Proof. destruct c as [[] [] [] [] [] [] [] []]; intros H; try reflexivity; discriminate H. Qed.

Lemma zfill2_of_two (a b : ascii) :
  Chr.is_digit a = true -> Str.zfill 2 (String a (String b "")) = String a (String b "").
Proof.
  intros Ha. unfold Str.zfill. rewrite (digit_not_sign a Ha). reflexivity.
Qed.

Lemma zfill2_of_one (a : ascii) :
  Chr.is_digit a = true -> Str.zfill 2 (String a "") = String "0" (String a "").
Proof.
  intros Ha. unfold Str.zfill. rewrite (digit_not_sign a Ha). reflexivity.
Qed.

Lemma zfill2_digits (s : string) :
  all_chars Chr.is_digit s = true -> 1 <= String.length s -> String.length s <= 2 ->
  two_digits (Str.zfill 2 s) = true.
Proof.
  destruct s as [|a [|b [|c s]]]; intros H H1 H2; simpl in H, H1, H2; try lia.
  - rewrite andb_true_r in H. rewrite (zfill2_of_one a H). simpl. exact H.
  - rewrite andb_true_r in H. apply andb_true_iff in H as [Ha Hb].
    rewrite (zfill2_of_two a b Ha). simpl. rewrite Ha, Hb. reflexivity.
Qed.

Lemma four_digits_of_run (s : string) :
  all_chars Chr.is_digit s = true -> 4 <= String.length s -> String.length s <= 4 ->
  four_digits s = true.
Proof.
  destruct s as [|a [|b [|c [|d [|e s]]]]]; intros H H1 H2; simpl in H, H1, H2; try lia.
  simpl. rewrite andb_true_r in H. rewrite <- !andb_assoc. exact H.
Qed.

Lemma two_digits_inv (s : string) :
  two_digits s = true ->
  exists a b, s = String a (String b "") /\ Chr.is_digit a = true /\ Chr.is_digit b = true.
Proof.
  destruct s as [|a [|b [|c s]]]; simpl; try discriminate.
  intros H. apply andb_true_iff in H. exists a, b. tauto.
Qed.

Lemma four_digits_inv (s : string) :
  four_digits s = true ->
  exists a b c d,
    s = String a (String b (String c (String d "")))
    /\ Chr.is_digit a = true /\ Chr.is_digit b = true
    /\ Chr.is_digit c = true /\ Chr.is_digit d = true.
Proof.
  destruct s as [|a [|b t]]; simpl; try discriminate.
  intros H. apply andb_true_iff in H as [H Ht]. apply andb_true_iff in H as [Ha Hb].
  apply two_digits_inv in Ht as (c & d & -> & Hc & Hd).
  exists a, b, c, d. auto.
Qed.

Lemma iso_shape_intro (y m d : string) :
  four_digits y = true -> two_digits m = true -> two_digits d = true ->
  is_iso_shape (y ++ "-" ++ m ++ "-" ++ d) = true.
Proof.
  intros Hy Hm Hd.
  destruct (four_digits_inv y Hy) as (y1 & y2 & y3 & y4 & -> & H1 & H2 & H3 & H4).
  destruct (two_digits_inv m Hm) as (m1 & m2 & -> & H5 & H6).
  destruct (two_digits_inv d Hd) as (d1 & d2 & -> & H7 & H8).
  change (forallb Chr.is_digit [y1; y2; y3; y4; m1; m2; d1; d2] && true && true = true).
  cbn [forallb]. rewrite H1, H2, H3, H4, H5, H6, H7, H8. reflexivity.
Qed.

Lemma od_get_value {V : Type} (k : string) (d : list (string * V)) (v : V) :
  OD.get k d = Some v -> In v (List.map snd d).
Proof.
  induction d as [|[k' v'] d IH]; simpl; [discriminate | ].
  destruct (String.eqb k k').
  - intros H. injection H as ->. left. reflexivity.
  - intros H. right. exact (IH H).
Qed.

Lemma months_two_digits (k v : string) : OD.get k months = Some v -> two_digits v = true.
Proof.
  intros H. apply od_get_value in H.
  assert (Hall : forallb two_digits (List.map snd months) = true) by (vm_compute; reflexivity).
  rewrite forallb_forall in Hall. exact (Hall v H).
Qed.

Lemma group_lookup (i : nat) (m : match_obj) (caps : list (nat * string)) :
  m_caps m = caps ->
  group i m = match lookup_cap i caps with Some s => s | None => "" end.
Proof. intros <-. reflexivity. Qed.

(** ** The groups of the six patterns of [_parse_date] *)

Ltac open_captures H :=
  unfold d12, d4, dash_or_slash, Plus, Opt in H;
  cbn [captures body_ok within] in H;
  decompose [ex and] H; clear H; subst;
  change (cmatch true CDigit) with Chr.is_digit in *;
  match goal with E : m_caps _ = _ |- _ => cbn [app] in E end.

Ltac close_captures :=
  eexists _, _, _; split; [eassumption | ]; unfold digit_run; auto 10.

Lemma caps_word_day_year (m : match_obj) :
  captures true (fst (nth 0 patterns (Eps, ymd_formatter))) (m_caps m) ->
  exists w d y, m_caps m = [(3, y); (2, d); (1, w)] /\ digit_run 1 2 d /\ digit_run 4 4 y.
Proof. cbn [nth patterns fst]. intros H. open_captures H. close_captures. Qed.

Lemma caps_day_word_year (m : match_obj) :
  captures true (fst (nth 1 patterns (Eps, ymd_formatter))) (m_caps m) ->
  exists d w y, m_caps m = [(3, y); (2, w); (1, d)] /\ digit_run 1 2 d /\ digit_run 4 4 y.
Proof. cbn [nth patterns fst]. intros H. open_captures H. close_captures. Qed.

Lemma caps_year_first (k1 k2 : cclass) (m : match_obj) :
  captures true (Cat (Grp 1 d4) (Cat (Cls k1) (Cat (Grp 2 d12) (Cat (Cls k2) (Grp 3 d12)))))
           (m_caps m) ->
  exists y mo d, m_caps m = [(3, d); (2, mo); (1, y)]
                 /\ digit_run 4 4 y /\ digit_run 1 2 mo /\ digit_run 1 2 d.
Proof. intros H. open_captures H. close_captures. Qed.

Lemma caps_year_last (m : match_obj) :
  captures true (fst (nth 3 patterns (Eps, ymd_formatter))) (m_caps m) ->
  exists a b y, m_caps m = [(3, y); (2, b); (1, a)]
                /\ digit_run 1 2 a /\ digit_run 1 2 b /\ digit_run 4 4 y.
Proof. cbn [nth patterns fst]. intros H. open_captures H. close_captures. Qed.

Lemma caps_word_year (m : match_obj) :
  captures true (fst (nth 5 patterns (Eps, ymd_formatter))) (m_caps m) ->
  exists w y, m_caps m = [(2, y); (1, w)] /\ digit_run 4 4 y.
Proof.
  cbn [nth patterns fst]. intros H. open_captures H.
  eexists _, _; split; [eassumption | ]; unfold digit_run; auto.
Qed.

Lemma iso_shape_of_runs (y m d : string) :
  digit_run 4 4 y -> two_digits m = true -> digit_run 1 2 d ->
  is_iso_shape (y ++ "-" ++ m ++ "-" ++ Str.zfill 2 d) = true.
Proof.
  intros (Hy & Hy1 & Hy2) Hm (Hd & Hd1 & Hd2).
  apply iso_shape_intro; [apply four_digits_of_run | | apply zfill2_digits]; assumption.
Qed.

Lemma zfill2_run (d : string) : digit_run 1 2 d -> two_digits (Str.zfill 2 d) = true.
Proof. intros (Hd & Hd1 & Hd2). apply zfill2_digits; assumption. Qed.

Lemma format_month_day_year_shape (m : match_obj) (r : string) :
  captures true (fst (nth 0 patterns (Eps, ymd_formatter))) (m_caps m) ->
  _format_date_from_match m months "month_day_year" = Some r -> is_iso_shape r = true.
Proof.
  intros H. apply caps_word_day_year in H as (w & d & y & E & Hd & Hy).
  unfold _format_date_from_match.
  change (String.eqb "month_day_year" "month_day_year") with true. cbv iota.
  rewrite (group_lookup 1 m _ E), (group_lookup 2 m _ E), (group_lookup 3 m _ E).
  cbn [lookup_cap Nat.eqb].
  destruct (OD.get (Str.lower w) months) as [month|] eqn:Em; [ | discriminate].
  destruct (truthy month); [ | discriminate].
  intros R. injection R as <-.
  apply iso_shape_of_runs; [exact Hy | exact (months_two_digits _ _ Em) | exact Hd].
Qed.

Lemma format_day_month_year_shape (m : match_obj) (r : string) :
  captures true (fst (nth 1 patterns (Eps, ymd_formatter))) (m_caps m) ->
  _format_date_from_match m months "day_month_year" = Some r -> is_iso_shape r = true.
Proof.
  intros H. apply caps_day_word_year in H as (d & w & y & E & Hd & Hy).
  unfold _format_date_from_match.
  change (String.eqb "day_month_year" "month_day_year") with false.
  change (String.eqb "day_month_year" "day_month_year") with true. cbv iota.
  rewrite (group_lookup 1 m _ E), (group_lookup 2 m _ E), (group_lookup 3 m _ E).
  cbn [lookup_cap Nat.eqb].
  destruct (OD.get (Str.lower w) months) as [month|] eqn:Em; [ | discriminate].
  destruct (truthy month); [ | discriminate].
  intros R. injection R as <-.
  apply iso_shape_of_runs; [exact Hy | exact (months_two_digits _ _ Em) | exact Hd].
Qed.

Lemma ymd_formatter_shape (k1 k2 : cclass) (m : match_obj) (r : string) :
  captures true (Cat (Grp 1 d4) (Cat (Cls k1) (Cat (Grp 2 d12) (Cat (Cls k2) (Grp 3 d12)))))
           (m_caps m) ->
  ymd_formatter m = Some r -> is_iso_shape r = true.
Proof.
  intros H. apply caps_year_first in H as (y & mo & d & E & Hy & Hmo & Hd).
  unfold ymd_formatter.
  rewrite (group_lookup 1 m _ E), (group_lookup 2 m _ E), (group_lookup 3 m _ E).
  cbn [lookup_cap Nat.eqb].
  intros R. injection R as <-.
  apply iso_shape_of_runs; [exact Hy | exact (zfill2_run _ Hmo) | exact Hd].
Qed.

Lemma try_eu_or_us_shape (m : match_obj) (r : string) :
  captures true (fst (nth 3 patterns (Eps, ymd_formatter))) (m_caps m) ->
  _try_eu_or_us_format m = Some r -> is_iso_shape r = true.
Proof.
  intros H. apply caps_year_last in H as (a & b & y & E & Ha & Hb & Hy).
  unfold _try_eu_or_us_format.
  rewrite (group_lookup 1 m _ E), (group_lookup 2 m _ E), (group_lookup 3 m _ E).
  cbn [lookup_cap Nat.eqb].
  destruct (Str.int a) as [da|]; [ | discriminate].
  destruct (12 <? da)%Z.
  - intros R. injection R as <-.
    apply iso_shape_of_runs; [exact Hy | exact (zfill2_run _ Hb) | exact Ha].
  - destruct (Str.int b) as [mb|]; [ | discriminate].
    destruct (12 <? mb)%Z; intros R; injection R as <-;
      (apply iso_shape_of_runs; [exact Hy | exact (zfill2_run _ Ha) | exact Hb]).
Qed.

Lemma format_month_year_shape (m : match_obj) (r : string) :
  captures true (fst (nth 5 patterns (Eps, ymd_formatter))) (m_caps m) ->
  _format_month_year m months = Some r -> is_iso_shape r = true.
Proof.
  intros H. apply caps_word_year in H as (w & y & E & Hy & Hy1 & Hy2).
  unfold _format_month_year.
  rewrite (group_lookup 1 m _ E), (group_lookup 2 m _ E).
  cbn [lookup_cap Nat.eqb].
  destruct (OD.get (Str.lower w) months) as [month|] eqn:Em; [ | discriminate].
  destruct (truthy month); [ | discriminate].
  intros R. injection R as <-.
  change (y ++ "-" ++ month ++ "-01") with (y ++ "-" ++ month ++ "-" ++ "01").
  apply iso_shape_intro;
    [apply four_digits_of_run; assumption | exact (months_two_digits _ _ Em) | reflexivity].
Qed.

Lemma patterns_loop_from (P : string -> Prop)
      (ps : list (regex * (match_obj -> option string))) (text r : string) :
  (forall p f m res,
      In (p, f) ps -> search true p text = Some m -> f m = Some res -> P res) ->
  patterns_loop ps text = Some r -> P r.
Proof.
  induction ps as [|[p f] ps IH]; intros Hall; cbn [patterns_loop]; [discriminate | ].
  assert (Hrest : patterns_loop ps text = Some r -> P r).
  { apply IH. intros p' f' m res Hin. apply Hall. right. exact Hin. }
  destruct (search true p text) as [m|] eqn:E; [ | exact Hrest].
  destruct (f m) as [res|] eqn:F; [ | exact Hrest].
  destruct (truthy res && _validate_date res); [ | exact Hrest].
  intros R. injection R as <-. exact (Hall p f m res (or_introl eq_refl) E F).
Qed.

Lemma patterns_loop_shape (text r : string) :
  patterns_loop patterns text = Some r -> is_iso_shape r = true.
Proof.
  apply (patterns_loop_from (fun res => is_iso_shape res = true)).
  intros p f m res Hin Hs Hf.
  apply search_captures in Hs. unfold patterns in Hin.
  destruct Hin as [E | [E | [E | [E | [E | [E | []]]]]]]; injection E as <- <-.
  - exact (format_month_day_year_shape _ _ Hs Hf).
  - exact (format_day_month_year_shape _ _ Hs Hf).
  - exact (ymd_formatter_shape _ _ _ _ Hs Hf).
  - exact (try_eu_or_us_shape _ _ Hs Hf).
  - exact (ymd_formatter_shape _ _ _ _ Hs Hf).
  - exact (format_month_year_shape _ _ Hs Hf).
Qed.

Lemma iso_shape_inv (s : string) :
  is_iso_shape s = true ->
  exists y1 y2 y3 y4 m1 m2 d1 d2,
    s = String y1 (String y2 (String y3 (String y4 (String "-" (String m1 (String m2
          (String "-" (String d1 (String d2 "")))))))))
    /\ forallb Chr.is_digit [y1; y2; y3; y4; m1; m2; d1; d2] = true.
Proof.
  destruct s as [|y1 [|y2 [|y3 [|y4 [|h1 [|m1 [|m2 [|h2 [|d1 [|d2 [|e s]]]]]]]]]]];
    try discriminate.
  unfold is_iso_shape. intros H.
  apply andb_true_iff in H as [H H2]. apply andb_true_iff in H as [H H1].
  apply Ascii.eqb_eq in H1, H2. subst h1 h2.
  exists y1, y2, y3, y4, m1, m2, d1, d2. auto.
Qed.

Lemma digit_chr_is_digit (n : Z) : Chr.is_digit (Str.digit_chr n) = true.
Proof.
  unfold Str.digit_chr. pose proof (Z.mod_pos_bound n 10 eq_refl) as Hb.
  assert (Hk : exists k, (k < 10)%nat /\ Z.to_N (n mod 10) = N.of_nat k).
  { exists (Z.to_nat (n mod 10)). split; [lia | ]. lia. }
  destruct Hk as (k & Hk & ->).
  do 10 (destruct k as [|k]; [reflexivity | ]). lia.
Qed.

Lemma strftime_shape (d : Date.date) : is_iso_shape (Date.strftime d) = true.
Proof.
  unfold Date.strftime, Str.dec4, Str.dec2.
  change (forallb Chr.is_digit
            [Str.digit_chr (Date.year d / 1000); Str.digit_chr (Date.year d / 100);
             Str.digit_chr (Date.year d / 10); Str.digit_chr (Date.year d);
             Str.digit_chr (Date.month d / 10); Str.digit_chr (Date.month d);
             Str.digit_chr (Date.day d / 10); Str.digit_chr (Date.day d)]
          && true && true = true).
  cbn [forallb]. rewrite !digit_chr_is_digit. reflexivity.
Qed.

Lemma parse_date_shape (dateutil : option fuzzy_parser) (text r : string) :
  _parse_date dateutil text = Some r -> is_iso_shape r = true.
Proof.
  unfold _parse_date. destruct (negb (truthy text)); [discriminate | ].
  destruct (match dateutil with Some parse => parse (Str.strip text) | None => None end)
    as [parsed|].
  - intros H. injection H as <-. apply strftime_shape.
  - apply patterns_loop_shape.
Qed.







(** ** A normalised date is read back as itself *)

(** The greedy repetition succeeds on its first attempt when it can take
    the whole run [cs], cannot go further, and what follows succeeds. *)
Lemma rep_greedy {R : Type} (ic : bool) (k : cclass) (lo : nat) (hi : option nat)
      (kont : mstate -> option R) (x : R) (cs rest' : string) :
  all_chars (cmatch ic k) cs = true ->
  forall (n : nat) (prev : option ascii) (pos : nat) (caps : list (nat * string)),
    within hi (n + String.length cs) ->
    lo <= n + String.length cs ->
    (hi = Some (n + String.length cs)
     \/ match rest' with
        | String c _ => cmatch ic k c = false
        | EmptyString => True
        end) ->
    kont (MState (last_char_from prev cs) rest' (pos + String.length cs) caps) = Some x ->
    rep ic k lo hi n prev (cs ++ rest') pos caps kont = Some x.
Proof.
  induction cs as [|c cs IH]; intros Hall n prev pos caps Hw Hlo Hstop Hk.
  - simpl in *. rewrite !Nat.add_0_r in *. change ("" ++ rest') with rest'.
    assert (Hhere : (if Nat.leb lo n then kont (MState prev rest' pos caps) else None)
                    = Some x).
    { apply Nat.leb_le in Hlo. rewrite Hlo. exact Hk. }
    destruct rest' as [|c t]; cbn [rep]; [exact Hhere | ].
    assert (Hc : cmatch ic k c && below n hi = false).
    { destruct Hstop as [-> | Hc].
      - simpl. rewrite Nat.ltb_irrefl. apply andb_false_r.
      - rewrite Hc. reflexivity. }
    rewrite Hc. exact Hhere.
  - simpl in Hall. apply andb_true_iff in Hall as [Hc Hall].
    change (String c cs ++ rest') with (String c (cs ++ rest')). cbn [rep].
    assert (Hb : below n hi = true).
    { destruct hi as [h|]; [ | reflexivity]. simpl in *. apply Nat.ltb_lt. lia. }
    rewrite Hc, Hb. cbn [andb].
    rewrite (IH Hall (S n) (Some c) (S pos) caps); [reflexivity | | | | ].
    + simpl in Hw. rewrite Nat.add_succ_comm. exact Hw.
    + simpl in Hlo. lia.
    + simpl in Hstop. rewrite Nat.add_succ_comm. exact Hstop.
    + simpl in Hk. rewrite Nat.add_succ_comm. exact Hk.
Qed.

Lemma rx_iso (y1 y2 y3 y4 m1 m2 d1 d2 : ascii) :
  forallb Chr.is_digit [y1; y2; y3; y4; m1; m2; d1; d2] = true ->
  rx true (Cat (Grp 1 d4) (Cat dash_or_slash (Cat (Grp 2 d12) (Cat dash_or_slash (Grp 3 d12)))))
     (MState None
        (String y1 (String y2 (String y3 (String y4 (String "-" (String m1 (String m2
          (String "-" (String d1 (String d2 "")))))))))) 0 []) Some
  = Some (MState (Some d2) "" 10
            [(3, String d1 (String d2 "")); (2, String m1 (String m2 ""));
             (1, String y1 (String y2 (String y3 (String y4 ""))))]).
Proof.
  cbn [forallb]. rewrite !andb_true_iff.
  intros (H1 & H2 & H3 & H4 & H5 & H6 & H7 & H8 & _).
  unfold d4, d12, dash_or_slash.
  cbn [rx st_prev st_rest st_pos st_caps].
  apply (rep_greedy true CDigit 4 (Some 4) _ _
           (String y1 (String y2 (String y3 (String y4 ""))))
           (String "-" (String m1 (String m2 (String "-" (String d1 (String d2 ""))))))).
  { cbn [all_chars cmatch]. rewrite H1, H2, H3, H4. reflexivity. }
  { simpl. lia. }
  { simpl. lia. }
  { left. reflexivity. }
  cbn [rx st_prev st_rest st_pos st_caps last_char_from String.length Nat.add].
  change (cmatch true (CAny [CChar "-"; CChar "/"]) "-") with true. cbv iota.
  apply (rep_greedy true CDigit 1 (Some 2) _ _
           (String m1 (String m2 "")) (String "-" (String d1 (String d2 "")))).
  { cbn [all_chars cmatch]. rewrite H5, H6. reflexivity. }
  { simpl. lia. }
  { simpl. lia. }
  { left. reflexivity. }
  cbn [rx st_prev st_rest st_pos st_caps last_char_from String.length Nat.add].
  change (cmatch true (CAny [CChar "-"; CChar "/"]) "-") with true. cbv iota.
  apply (rep_greedy true CDigit 1 (Some 2) _ _ (String d1 (String d2 "")) "").
  { cbn [all_chars cmatch]. rewrite H7, H8. reflexivity. }
  { simpl. lia. }
  { simpl. lia. }
  { left. reflexivity. }
  reflexivity.
Qed.

Lemma patterns_loop_skip (pattern : regex) (formatter : match_obj -> option string)
      (rest : list (regex * (match_obj -> option string))) (text : string) :
  needs Chr.is_space true pattern = true -> any_char Chr.is_space text = false ->
  patterns_loop ((pattern, formatter) :: rest) text = patterns_loop rest text.
Proof.
  intros Hn Hs. cbn [patterns_loop]. rewrite (search_needs _ _ _ _ Hn Hs). reflexivity.
Qed.

Lemma search_from_hit (ic : bool) (r : regex) (prev : option ascii) (rest : string)
      (pos : nat) (m : match_obj) :
  match_here ic r prev rest pos = Some m -> search_from ic r prev rest pos = Some m.
Proof. intros H. destruct rest; cbn [search_from]; rewrite H; reflexivity. Qed.

Lemma parse_date_fixed_point (r : string) :
  is_iso_shape r = true -> _validate_date r = true -> _parse_date None r = Some r.
Proof.
  intros Hs Hv.
  destruct (iso_shape_inv r Hs) as (y1 & y2 & y3 & y4 & m1 & m2 & d1 & d2 & E & Hd).
  pose proof (rx_iso _ _ _ _ _ _ _ _ Hd) as Hrx. rewrite <- E in Hrx.
  cbn [forallb] in Hd. rewrite !andb_true_iff in Hd.
  destruct Hd as (H1 & H2 & H3 & H4 & H5 & H6 & H7 & H8 & _).
  assert (Hstrip : Str.strip r = r).
  { rewrite E. unfold Str.strip. cbn [Str.lstrip]. rewrite (digit_not_space y1 H1).
    cbn [Str.rstrip]. rewrite (digit_not_space d2 H8). reflexivity. }
  assert (Hspace : any_char Chr.is_space r = false).
  { rewrite E. cbn [any_char].
    rewrite (digit_not_space y1 H1), (digit_not_space y2 H2), (digit_not_space y3 H3),
      (digit_not_space y4 H4), (digit_not_space m1 H5), (digit_not_space m2 H6),
      (digit_not_space d1 H7), (digit_not_space d2 H8).
    reflexivity. }
  assert (Htruthy : truthy r = true) by (rewrite E; reflexivity).
  assert (Htake : Str.take 10 r = r) by (rewrite E; reflexivity).
  unfold _parse_date. rewrite Htruthy, Hstrip. cbn [negb].
  unfold patterns.
  rewrite (patterns_loop_skip _ _ _ r); [ | vm_compute; reflexivity | exact Hspace].
  rewrite (patterns_loop_skip _ _ _ r); [ | vm_compute; reflexivity | exact Hspace].
  cbn [patterns_loop]. unfold search.
  erewrite search_from_hit; [ | unfold match_here; rewrite Hrx; reflexivity].
  cbn [st_pos Nat.sub]. rewrite Htake.
  unfold ymd_formatter, group. cbn [m_caps st_caps lookup_cap Nat.eqb].
  rewrite (zfill2_of_two m1 m2 H5), (zfill2_of_two d1 d2 H7).
  change (String y1 (String y2 (String y3 (String y4 ""))) ++ "-"
          ++ String m1 (String m2 "") ++ "-" ++ String d1 (String d2 ""))
    with (String y1 (String y2 (String y3 (String y4 (String "-" (String m1 (String m2
          (String "-" (String d1 (String d2 "")))))))))).
  rewrite <- E, Htruthy, Hv. reflexivity.
Qed.

(** X14.  Normalising is idempotent: a date that [_parse_date] returns
    (fuzzy parser absent) is read back by [_parse_date] as itself. *)
Theorem X14_parse_date_idempotent (text r : string) :
  _parse_date None text = Some r -> _parse_date None r = Some r.
Proof.
  intros H. apply parse_date_fixed_point.
  - exact (parse_date_shape _ _ _ H).
  - exact (parse_date_validated _ _ H).
Qed.

Lemma X14_parse_date_idempotent_witness : _parse_date None "2021-03-05" = Some "2021-03-05".
Proof.
  apply (X14_parse_date_idempotent "March 5, 2021" "2021-03-05").
  vm_compute. reflexivity.
Defined.
